(** * getaways-api: a shallow embedding of the controllers and models

    The repository is an Express/Mongoose REST backend.  This development
    embeds handlers of authController, userController and tourController,
    the schemas of the user, tour and review models with their hooks,
    setters, validators and indexes, and the wrapper catchAsync, as
    functions over an explicit database state, and proves the properties
    stated about them.

    Conventions of the embedding:
    - a collection is the list of its documents, in natural order; a query
      is a boolean predicate on documents, findOne returns the first match;
    - a JavaScript Number is a rational ([Qc], canonical form, so that [=]
      is the equality of numbers); a Date is its time value in ms ([Z]);
    - an async handler is a function to a [Run]: the new database, the
      calls it made on [res] and [next], in order, and the error its
      promise was rejected with, if any; [catchAsync] forwards that error
      to [next] as the source does;
    - a Mongoose query runs the hooks, setters and validators that the
      schema of its model declares: the pre-find hooks narrow every
      find-family query (find, findOne, findById, findByIdAndUpdate,
      findByIdAndDelete), setters are applied to the values of an update,
      update validators run before the query when [runValidators] is set;
    - what the code obtains from a library (bcrypt, jsonwebtoken, crypto,
      Mongoose's casts, the geospatial operator) is a field of the class
      [Library]; nothing is assumed about these fields. *)

From Stdlib Require Import ZArith QArith Qcanon Qround String Ascii List Lia.
From stdpp Require Import base option list gmap strings.

Local Open Scope string_scope.
Local Open Scope Z_scope.
Local Open Scope list_scope.

(* ================================================================== *)
(** * JavaScript values *)
(* ================================================================== *)

Definition Number : Type := Qc.

(** [num n d] is the number n/d. *)
Definition num (n : Z) (d : positive) : Number := Q2Qc (n # d).

(** [Math.round]: the nearest integer, halves rounded up. *)
Definition Math_round (x : Number) : Z := Qfloor (x + num 1 2)%Qc.

(** A value of a JSON request body.  A nested object or array is kept as
    [JObj]: the code never looks inside one. *)
Inductive JsValue : Type :=
| JNull
| JBool (b : bool)
| JNum (n : Number)
| JStr (s : string)
| JObj.

(** JavaScript truthiness. *)
Definition truthy (v : JsValue) : bool :=
  match v with
  | JNull => false
  | JBool b => b
  | JNum n => negb (bool_decide (n = num 0 1))
  | JStr s => negb (String.eqb s "")
  | JObj => true
  end.

(** Truthiness of a property read: a missing property is [undefined]. *)
Definition truthy_prop (o : option JsValue) : bool :=
  match o with
  | Some v => truthy v
  | None => false
  end.

(** Truthiness of a string that may be [undefined]. *)
Definition truthy_str (o : option string) : bool :=
  match o with
  | Some s => negb (String.eqb s "")
  | None => false
  end.

(** [s.split(sep)] for a one-character separator. *)
Fixpoint split (sep : ascii) (s : string) : list string :=
  match s with
  | EmptyString => [""]
  | String c s' =>
      if Ascii.eqb c sep then "" :: split sep s'
      else match split sep s' with
           | [] => [String c ""]
           | w :: ws => String c w :: ws
           end
  end.

(** [s.startsWith(p)]. *)
Definition startsWith (s p : string) : bool := String.prefix p s.

(** A plain JavaScript object: a finite map from property names. *)
Abbreviation JsObject := (gmap string JsValue).

(* ================================================================== *)
(** * Errors, responses and the handler wrapper *)
(* ================================================================== *)

(** [AppError message statusCode] is [new AppError(message, statusCode)].
    [Thrown name code messages] is an error raised by a library or by the
    runtime (jsonwebtoken, Mongoose, the driver, a TypeError), with its
    [name], its [code] if it has one, and its messages: it carries no
    status code. *)
Inductive Err : Type :=
| AppError (message : string) (statusCode : Z)
| Thrown (name : string) (code : option Z) (messages : list string).

Definition err_statusCode (e : Err) : option Z :=
  match e with
  | AppError _ c => Some c
  | Thrown _ _ _ => None
  end.

(** Mongoose gathers the messages of all failed validators in one error. *)
Definition ValidationError (messages : list string) : Err := Thrown "ValidationError" None messages.
Definition CastError : Err := Thrown "CastError" None [].
(** The driver's error for a violated unique index (code 11000). *)
Definition DuplicateKeyError : Err := Thrown "MongoError" (Some 11000) ["E11000 duplicate key error"].
Definition TypeError (message : string) : Err := Thrown "TypeError" None [message].

(* ================================================================== *)
(** * Documents *)
(* ================================================================== *)

Inductive TUserRoles : Type := role_user | role_guide | role_lead_guide | role_admin.

#[global] Instance TUserRoles_eq_dec : EqDecision TUserRoles.
Proof. solve_decision. Defined.

(** A user document.  [None] is an absent ([undefined]) path; [active]
    and [password] are [select: false], so they are absent from a document
    read by a query that does not select them. *)
Record User : Type := mkUser {
  user_id : string;
  user_name : string;
  email : string;
  photo : string;
  role : TUserRoles;
  password : option string;
  passwordConfirm : option string;
  passwordChangedAt : option Z;
  passwordResetToken : option string;
  passwordResetExpires : option Z;
  active : option bool
}.

(** A tour document, with the paths the modelled code reads or writes. *)
Record Tour : Type := mkTour {
  tour_id : string;
  price : Number;
  priceDiscount : option Number;
  ratingsAverage : Number;
  ratingsQuantity : Number;
  secretTour : bool
}.

Record Review : Type := mkReview {
  review_id : string;
  review : string;
  rating : Number;
  review_user : string;
  review_tour : string
}.

Record Db : Type := mkDb {
  users : list User;
  tours : list Tour;
  reviews : list Review
}.

Definition set_users (us : list User) (db : Db) : Db := mkDb us (tours db) (reviews db).
Definition set_tours (ts : list Tour) (db : Db) : Db := mkDb (users db) ts (reviews db).
Definition set_reviews (rs : list Review) (db : Db) : Db := mkDb (users db) (tours db) rs.

(** The JSON bodies the handlers send. *)
Inductive Payload : Type :=
| data_null
| data_tour (t : Tour) (populated : list Review)
| data_updated_tour (t : Tour)
| data_tours (results : nat) (l : list Tour)
| data_user (u : option User)
| token_user (token : string) (u : User).

(** What a handler does to the outside: a call of [next], a cookie set on
    the response, a response sent with a status code. *)
Inductive Effect : Type :=
| Next (e : option Err)
| Cookie (name value : string)
| Send (status : Z) (body : Payload).

(** The run of an async handler body. *)
Record Run : Type := mkRun {
  run_db : Db;
  run_effects : list Effect;
  run_rejected : option Err
}.

(** [catchAsync fn]: [fn(req, res, next).catch(next)]. *)
Definition catchAsync (r : Run) : Db * list Effect :=
  (run_db r,
   run_effects r ++ match run_rejected r with
                    | Some e => [Next (Some e)]
                    | None => []
                    end).

(** The ways a handler body ends. *)
Definition finish (db : Db) (effs : list Effect) : Run := mkRun db effs None.
Definition reject (db : Db) (effs : list Effect) (e : Err) : Run := mkRun db effs (Some e).

(** A decoded JWT payload. *)
Record Decoded : Type := mkDecoded { decoded_id : string; decoded_iat : Z }.

(** The library calls of the code. *)
Class Library : Type := {
  (** [bcrypt.hash(s, cost)] *)
  bcrypt_hash : string -> nat -> string;
  (** [bcrypt.compare(candidate, hash)] *)
  bcrypt_compare : string -> string -> bool;
  (** [crypto.createHash('sha256').update(s).digest('hex')] *)
  sha256_hex : string -> string;
  (** [jwt.sign({ id }, secret, { expiresIn })] *)
  jwt_sign : string -> string -> string;
  (** [jwt.verify(token, secret)], at the time of the call *)
  jwt_verify : string -> string -> Err + Decoded;
  (** Mongoose's casts of a value to String, Number, Boolean and Date;
      [None] is a CastError *)
  castString : JsValue -> option string;
  castNumber : JsValue -> option Number;
  castBoolean : JsValue -> option bool;
  castDate : JsValue -> option Z;
  (** [s.toLowerCase()] *)
  toLowerCase : string -> string;
  (** [validator.isEmail] *)
  isEmail : string -> bool;
  (** unary plus on a path parameter; [None] is NaN *)
  toNumber : string -> option Number;
  (** the server's evaluation of
      [{ startLocation: { $geoWithin: { $centerSphere: [[lng, lat], radius] } } }]:
      it rejects the query or decides it on each tour *)
  geoWithin : option string -> option string -> option Number -> Err + (Tour -> bool)
}.

(** A request, with the parts the handlers read; [req_user] and
    [locals_user] are [req.user] and [res.locals.user], set by [protect].
    The path parameters of a route are arguments of its handler. *)
Record Request : Type := mkRequest {
  headers_authorization : option string;
  cookies_jwt : option string;
  body : JsObject;
  file_filename : option string;
  req_user : option User;
  locals_user : option User
}.

Definition set_user (u : User) (req : Request) : Request :=
  mkRequest (headers_authorization req) (cookies_jwt req) (body req)
            (file_filename req) (Some u) (Some u).

(* ================================================================== *)
(** * Collections *)
(* ================================================================== *)

Section Collection.
Context {A : Type}.

(** The first document matching a query. *)
Definition findFirst (q : A -> bool) (l : list A) : option A := List.find q l.

(** Apply [f] to the first document matching [q]. *)
Fixpoint updateFirst (q : A -> bool) (f : A -> A) (l : list A) : list A :=
  match l with
  | [] => []
  | x :: l' => if q x then f x :: l' else x :: updateFirst q f l'
  end.

(** Remove the first document matching [q]. *)
Fixpoint deleteFirst (q : A -> bool) (l : list A) : list A :=
  match l with
  | [] => []
  | x :: l' => if q x then l' else x :: deleteFirst q l'
  end.
End Collection.

(* ================================================================== *)
(** * models/userModel.ts *)
(* ================================================================== *)

(** [{ active: { $ne: false } }]: an absent [active] matches. *)
Definition activeNeFalse (u : User) : bool :=
  match active u with
  | Some false => false
  | _ => true
  end.

(** [userSchema.pre(/^find/)]: every find-family query gets the filter. *)
Definition User_preFind (q : User -> bool) : User -> bool :=
  fun u => q u && activeNeFalse u.

(** The default projection: [password] and [active] are [select: false];
    [selectPassword] is [.select('+password')]. *)
Definition User_select (selectPassword : bool) (u : User) : User :=
  mkUser (user_id u) (user_name u) (email u) (photo u) (role u)
         (if selectPassword then password u else None)
         (passwordConfirm u) (passwordChangedAt u)
         (passwordResetToken u) (passwordResetExpires u) None.

Definition User_find (q : User -> bool) (db : Db) : list User :=
  map (User_select false) (List.filter (User_preFind q) (users db)).

Definition User_findOne (q : User -> bool) (selectPassword : bool) (db : Db) : option User :=
  User_select selectPassword <$> findFirst (User_preFind q) (users db).

Definition User_byId (id : string) : User -> bool := fun u => String.eqb (user_id u) id.

Definition User_findById (id : string) (db : Db) : option User :=
  User_findOne (User_byId id) false db.

(** An update document cast to the schema: a path is set when present. *)
Record UserUpdate : Type := mkUserUpdate {
  upd_name : option string;
  upd_email : option string;
  upd_photo : option string;
  upd_role : option TUserRoles;
  upd_password : option string;
  upd_passwordConfirm : option string;
  upd_passwordChangedAt : option Z;
  upd_passwordResetToken : option string;
  upd_passwordResetExpires : option Z;
  upd_active : option bool
}.

Definition or_else {B : Type} (new : option B) (old : B) : B :=
  match new with
  | Some v => v
  | None => old
  end.

Definition or_keep {B : Type} (new old : option B) : option B :=
  match new with
  | Some v => Some v
  | None => old
  end.

Definition parseRole (s : string) : option TUserRoles :=
  if String.eqb s "user" then Some role_user
  else if String.eqb s "guide" then Some role_guide
  else if String.eqb s "lead-guide" then Some role_lead_guide
  else if String.eqb s "admin" then Some role_admin
  else None.

(** [this.passwordChangedAt.getTime() / 1000] compared with the token's
    issued-at time, in seconds. *)
Definition changedPasswordAfter (this : User) (JWTTimestamp : Z) : bool :=
  match passwordChangedAt this with
  | Some t =>
      let changedTimestamp := (num t 1 / num 1000 1)%Qc in
      bool_decide (num JWTTimestamp 1 < changedTimestamp)%Qc
  | None => false
  end.

(** A document in memory: its paths, the paths assigned since it was
    loaded, and whether it was never saved.  An assignment marks its path
    as modified; where Mongoose does not (the value assigned is the one
    the path has), the write stores the value already there. *)
Record UserDoc : Type := mkUserDoc {
  doc : User;
  modifiedPaths : list string;
  isNew : bool
}.

Definition isModified (path : string) (d : UserDoc) : bool :=
  bool_decide (path ∈ modifiedPaths d).

Definition loaded (u : User) : UserDoc := mkUserDoc u [] false.

Definition assign_password (v : option string) (d : UserDoc) : UserDoc :=
  let u := doc d in
  mkUserDoc (mkUser (user_id u) (user_name u) (email u) (photo u) (role u) v
                    (passwordConfirm u) (passwordChangedAt u)
                    (passwordResetToken u) (passwordResetExpires u) (active u))
            ("password" :: modifiedPaths d) (isNew d).

Definition assign_passwordConfirm (v : option string) (d : UserDoc) : UserDoc :=
  let u := doc d in
  mkUserDoc (mkUser (user_id u) (user_name u) (email u) (photo u) (role u) (password u)
                    v (passwordChangedAt u)
                    (passwordResetToken u) (passwordResetExpires u) (active u))
            ("passwordConfirm" :: modifiedPaths d) (isNew d).

Definition assign_passwordChangedAt (v : option Z) (d : UserDoc) : UserDoc :=
  let u := doc d in
  mkUserDoc (mkUser (user_id u) (user_name u) (email u) (photo u) (role u) (password u)
                    (passwordConfirm u) v
                    (passwordResetToken u) (passwordResetExpires u) (active u))
            ("passwordChangedAt" :: modifiedPaths d) (isNew d).

Definition assign_passwordResetToken (v : option string) (d : UserDoc) : UserDoc :=
  let u := doc d in
  mkUserDoc (mkUser (user_id u) (user_name u) (email u) (photo u) (role u) (password u)
                    (passwordConfirm u) (passwordChangedAt u)
                    v (passwordResetExpires u) (active u))
            ("passwordResetToken" :: modifiedPaths d) (isNew d).

Definition assign_passwordResetExpires (v : option Z) (d : UserDoc) : UserDoc :=
  let u := doc d in
  mkUserDoc (mkUser (user_id u) (user_name u) (email u) (photo u) (role u) (password u)
                    (passwordConfirm u) (passwordChangedAt u)
                    (passwordResetToken u) v (active u))
            ("passwordResetExpires" :: modifiedPaths d) (isNew d).

(** Lower-case hexadecimal, [buffer.toString('hex')]. *)
Definition hexDigit (n : N) : ascii :=
  nth (N.to_nat n) (list_ascii_of_string "0123456789abcdef") "0"%char.

Definition byte_toHex (b : Byte.byte) : string :=
  let n := Byte.to_N b in
  String (hexDigit (n / 16)) (String (hexDigit (n mod 16)) "").

Fixpoint toHex (bs : list Byte.byte) : string :=
  match bs with
  | [] => ""
  | b :: bs' => byte_toHex b +:+ toHex bs'
  end.

Definition pick {B : Type} (paths : list string) (path : string)
    (f : User -> B) (mem stored : User) : B :=
  if bool_decide (path ∈ paths) then f mem else f stored.

(** [save()] of a loaded document writes the modified paths only. *)
Definition writePaths (paths : list string) (mem stored : User) : User :=
  mkUser (user_id stored)
         (pick paths "name" user_name mem stored)
         (pick paths "email" email mem stored)
         (pick paths "photo" photo mem stored)
         (pick paths "role" role mem stored)
         (pick paths "password" password mem stored)
         (pick paths "passwordConfirm" passwordConfirm mem stored)
         (pick paths "passwordChangedAt" passwordChangedAt mem stored)
         (pick paths "passwordResetToken" passwordResetToken mem stored)
         (pick paths "passwordResetExpires" passwordResetExpires mem stored)
         (pick paths "active" active mem stored).

(** The unique index on [email]: another document holds the address. *)
Definition emailTaken (q : User -> bool) (address : string) (l : list User) : bool :=
  existsb (fun v => String.eqb (email v) address) (deleteFirst q l).

(** A path of an update document: absent, cast, or failing to cast. *)
Definition castPath {B : Type} (cast : JsValue -> option B) (o : option JsValue)
    : option (option B) :=
  match o with
  | None => Some None
  | Some v => Some <$> cast v
  end.

Section UserModel.
Context `{Library}.

(** Validators of [name]: required. *)
Definition validate_name (v : string) : list string :=
  if String.eqb v "" then ["Please provide your name"] else [].

(** Validators of [email]: required, [validator.isEmail]. *)
Definition validate_email (v : string) : list string :=
  if String.eqb v "" then ["Please provide your email"]
  else if isEmail v then [] else ["Please provide a valid email"].

(** Validators of [password]: required, [minlength: 8]. *)
Definition validate_password (v : option string) : list string :=
  match v with
  | None => ["Please provide a password"]
  | Some pw =>
      if String.eqb pw "" then ["Please provide a password"]
      else if (String.length pw <? 8)%nat then ["Password must have at least 8 characters"]
      else []
  end.

(** Validators of [passwordConfirm]: required, [el === this.password];
    [this_password] is what [this.password] evaluates to. *)
Definition validate_passwordConfirm (v this_password : option string) : list string :=
  match v with
  | None => ["Please confirm your password"]
  | Some el =>
      if String.eqb el "" then ["Please confirm your password"]
      else if bool_decide (Some el = this_password) then [] else ["Passwords do not match"]
  end.

(** Validation before [save()].  The required paths are validated on
    every save; [password], which is [select: false], is skipped when it
    was neither loaded nor assigned. *)
Definition User_validate (d : UserDoc) : list string :=
  let u := doc d in
  validate_name (user_name u)
  ++ validate_email (email u)
  ++ (if negb (isModified "password" d) && negb (isNew d) && bool_decide (password u = None)
      then [] else validate_password (password u))
  ++ validate_passwordConfirm (passwordConfirm u) (password u).

(** First [userSchema.pre('save')] hook. *)
Definition preSave_hashPassword (this : UserDoc) : Err + UserDoc :=
  if negb (isModified "password" this) then inr this
  else match password (doc this) with
       | Some pw =>
           inr (assign_passwordConfirm None
                  (assign_password (Some (bcrypt_hash pw 12)) this))
       | None => inl (Thrown "Error" None ["Illegal arguments: undefined, number"])
       end.

(** Second [userSchema.pre('save')] hook. *)
Definition preSave_passwordChangedAt (now : Z) (this : UserDoc) : UserDoc :=
  if negb (isModified "password" this) || isNew this then this
  else assign_passwordChangedAt (Some (now - 1000)) this.

(** [doc.save({ validateBeforeSave })]: validation, the two pre-save
    hooks in the order of their registration, then the write. *)
Definition User_save (validateBeforeSave : bool) (now : Z) (d : UserDoc) (db : Db)
    : Err + (Db * UserDoc) :=
  match (if validateBeforeSave then User_validate d else []) with
  | (_ :: _) as errors => inl (ValidationError errors)
  | [] =>
      match preSave_hashPassword d with
      | inl e => inl e
      | inr d1 =>
          let d2 := preSave_passwordChangedAt now d1 in
          let u := doc d2 in
          let q := User_byId (user_id u) in
          let saved := mkUserDoc u [] false in
          if isNew d2 then
            if existsb (fun v => String.eqb (email v) (email u)) (users db)
            then inl DuplicateKeyError
            else inr (set_users (users db ++ [u]) db, saved)
          else
            match findFirst q (users db) with
            | None => inl (Thrown "DocumentNotFoundError" None [])
            | Some _ =>
                if isModified "email" d2 && emailTaken q (email u) (users db)
                then inl DuplicateKeyError
                else inr (set_users (updateFirst q (writePaths (modifiedPaths d2) u) (users db)) db,
                          saved)
            end
      end
  end.

(** Setters run on the values of an update: [email] is [lowercase: true]. *)
Definition User_applyUpdate (upd : UserUpdate) (u : User) : User :=
  mkUser (user_id u)
         (or_else (upd_name upd) (user_name u))
         (or_else (toLowerCase <$> upd_email upd) (email u))
         (or_else (upd_photo upd) (photo u))
         (or_else (upd_role upd) (role u))
         (or_keep (upd_password upd) (password u))
         (or_keep (upd_passwordConfirm upd) (passwordConfirm u))
         (or_keep (upd_passwordChangedAt upd) (passwordChangedAt u))
         (or_keep (upd_passwordResetToken upd) (passwordResetToken u))
         (or_keep (upd_passwordResetExpires upd) (passwordResetExpires u))
         (or_keep (upd_active upd) (active u)).

(** Update validators ([runValidators: true]) run on the paths of the
    update.  There [this] is not the document, so the comparison of
    [passwordConfirm] with [this.password] fails. *)
Definition User_updateValidators (upd : UserUpdate) : list string :=
  from_option validate_name [] (upd_name upd)
  ++ from_option validate_email [] (toLowerCase <$> upd_email upd)
  ++ from_option (fun v => validate_password (Some v)) [] (upd_password upd)
  ++ from_option (fun v => validate_passwordConfirm (Some v) None) [] (upd_passwordConfirm upd).

(** [User.findByIdAndUpdate(id, update, { new: true, runValidators })]:
    the update validators run first, the pre-find hook narrows the query,
    the first match is updated and returned. *)
Definition User_findByIdAndUpdate (id : string) (upd : UserUpdate) (runValidators : bool)
    (db : Db) : Err + (Db * option User) :=
  match (if runValidators then User_updateValidators upd else []) with
  | (_ :: _) as errors => inl (ValidationError errors)
  | [] =>
      let q := User_preFind (User_byId id) in
      match findFirst q (users db) with
      | None => inr (db, None)
      | Some u =>
          if from_option (fun e => emailTaken q (toLowerCase e) (users db)) false (upd_email upd)
          then inl DuplicateKeyError
          else inr (set_users (updateFirst q (User_applyUpdate upd) (users db)) db,
                    Some (User_select false (User_applyUpdate upd u)))
      end
  end.

(** [User.findByIdAndDelete(id)]. *)
Definition User_findByIdAndDelete (id : string) (db : Db) : Db * option User :=
  let q := User_preFind (User_byId id) in
  match findFirst q (users db) with
  | None => (db, None)
  | Some u => (set_users (deleteFirst q (users db)) db, Some (User_select false u))
  end.

(** The cast of a plain object to an update of the user schema: each
    path of the schema is read from the object; other keys are dropped
    (strict mode).  A value of [role] outside the enum fails the enum
    validator. *)
Definition castUserUpdate (obj : JsObject) : Err + UserUpdate :=
  match
    (n ← castPath castString (obj !! "name");
     e ← castPath castString (obj !! "email");
     p ← castPath castString (obj !! "photo");
     r ← castPath castString (obj !! "role");
     pw ← castPath castString (obj !! "password");
     pc ← castPath castString (obj !! "passwordConfirm");
     ca ← castPath castDate (obj !! "passwordChangedAt");
     rt ← castPath castString (obj !! "passwordResetToken");
     re ← castPath castDate (obj !! "passwordResetExpires");
     a ← castPath castBoolean (obj !! "active");
     Some (n, e, p, r, pw, pc, ca, rt, re, a))
  with
  | None => inl CastError
  | Some (n, e, p, r, pw, pc, ca, rt, re, a) =>
      match r with
      | None => inr (mkUserUpdate n e p None pw pc ca rt re a)
      | Some s =>
          match parseRole s with
          | Some r' => inr (mkUserUpdate n e p (Some r') pw pc ca rt re a)
          | None => inl (ValidationError ["`" +:+ s +:+ "` is not a valid enum value for path `role`."])
          end
      end
  end.

(** [userSchema.methods.createPasswordResetToken]; [randomBytes] is the
    value of [crypto.randomBytes(32)]. *)
Definition createPasswordResetToken (randomBytes : list Byte.byte) (now : Z)
    (this : UserDoc) : string * UserDoc :=
  let resetToken := toHex randomBytes in
  let this1 := assign_passwordResetToken (Some (sha256_hex resetToken)) this in
  let this2 := assign_passwordResetExpires (Some (now + 10 * 60 * 1000)) this1 in
  (resetToken, this2).
End UserModel.

(* ================================================================== *)
(** * controllers/authController.ts *)
(* ================================================================== *)

Definition clear_password (u : User) : User :=
  mkUser (user_id u) (user_name u) (email u) (photo u) (role u) None
         (passwordConfirm u) (passwordChangedAt u)
         (passwordResetToken u) (passwordResetExpires u) (active u).

Definition notLoggedIn : Err :=
  AppError "You are not logged in. Please log in to get access." 401.
Definition userGone : Err := AppError "The user no longer exists." 401.
Definition passwordChanged : Err :=
  AppError "User recently changed password. Please log in again." 401.
Definition noPermission : Err :=
  AppError "You do not have permission to perform this action" 403.
Definition tokenInvalid : Err := AppError "Token is invalid or has expired" 400.
Definition incorrectLogin : Err := AppError "Incorrect email or password" 401.

(** The token [protect] reads: the second space-separated word of an
    authorization header that starts with Bearer, and only in the absence
    of such a header the jwt cookie. *)
Definition getToken (req : Request) : option string :=
  let fromCookie :=
    if truthy_str (cookies_jwt req) then cookies_jwt req else None in
  match headers_authorization req with
  | Some authorization =>
      if negb (String.eqb authorization "") && startsWith authorization "Bearer"
      then nth_error (split " " authorization) 1
      else fromCookie
  | None => fromCookie
  end.

(** [restrictTo(...roles)]: the middleware it returns, as the request it
    leaves and the calls it makes; reading [req.user.role] of a request
    without user throws. *)
Definition restrictTo (roles : list TUserRoles) (req : Request)
    : Err + (Request * list Effect) :=
  match req_user req with
  | None => inl (TypeError "Cannot read property 'role' of undefined")
  | Some u =>
      if negb (bool_decide (role u ∈ roles))
      then inr (req, [Next (Some noPermission)])
      else inr (req, [Next None])
  end.

Section AuthController.
Context `{Library}.
Variable JWT_SECRET : string.

Definition signToken (id : string) : string := jwt_sign id JWT_SECRET.

(** [createSendToken(user, statusCode, req, res)]. *)
Definition createSendToken (u : User) (statusCode : Z) : list Effect :=
  let token := signToken (user_id u) in
  [Cookie "jwt" token; Send statusCode (token_user token (clear_password u))].

Definition login (req : Request) (db : Db) : Run :=
  let email' := body req !! "email" in
  let password' := body req !! "password" in
  if negb (truthy_prop email') || negb (truthy_prop password')
  then finish db [Next (Some (AppError "Please provide email and password" 400))]
  else
    match email' ≫= castString with
    | None => reject db [] CastError
    | Some address =>
        match User_findOne (fun u => String.eqb (email u) (toLowerCase address)) true db with
        | None => finish db [Next (Some incorrectLogin)]
        | Some u =>
            match password', password u with
            | Some (JStr candidate), Some hash =>
                if negb (bcrypt_compare candidate hash)
                then finish db [Next (Some incorrectLogin)]
                else finish db (createSendToken u 200)
            | _, _ => reject db [] (Thrown "Error" None ["Illegal arguments"])
            end
        end
    end.

(** [protect]: the request it leaves and its run. *)
Definition protect (req : Request) (db : Db) : Request * Run :=
  match getToken req with
  | None => (req, finish db [Next (Some notLoggedIn)])
  | Some token =>
      if String.eqb token "" then (req, finish db [Next (Some notLoggedIn)])
      else
        match jwt_verify token JWT_SECRET with
        | inl e => (req, reject db [] e)
        | inr decoded =>
            match User_findById (decoded_id decoded) db with
            | None => (req, finish db [Next (Some userGone)])
            | Some currentUser =>
                if changedPasswordAfter currentUser (decoded_iat decoded)
                then (req, finish db [Next (Some passwordChanged)])
                else (set_user currentUser req, finish db [Next None])
            end
        end
  end.

(** [{ passwordResetToken: hashedToken, passwordResetExpires: { $gt: now } }]. *)
Definition resetQuery (hashedToken : string) (now : Z) (u : User) : bool :=
  bool_decide (passwordResetToken u = Some hashedToken)
  && match passwordResetExpires u with
     | Some t => now <? t
     | None => false
     end.

(** The four assignments of [resetPassword] to the user it found. *)
Definition resetAssignments (req : Request) (u : User) : UserDoc :=
  let d1 := assign_password (body req !! "password" ≫= castString) (loaded u) in
  let d2 := assign_passwordConfirm (body req !! "passwordConfirm" ≫= castString) d1 in
  let d3 := assign_passwordResetToken None d2 in
  assign_passwordResetExpires None d3.

(** [resetPassword]; [token] is [req.params.token], [now] the time of
    the request. *)
Definition resetPassword (token : string) (req : Request) (now : Z) (db : Db) : Run :=
  let hashedToken := sha256_hex token in
  match User_findOne (resetQuery hashedToken now) false db with
  | None => finish db [Next (Some tokenInvalid)]
  | Some u =>
      match User_save true now (resetAssignments req u) db with
      | inl e => reject db [] e
      | inr (db', saved) => finish db' (createSendToken (doc saved) 200)
      end
  end.
End AuthController.

(* ================================================================== *)
(** * controllers/userController.ts *)
(* ================================================================== *)

(** [filterObj(obj, ...allowedFields)]: the loop over [Object.keys(obj)]
    that copies the allowed properties into a fresh object. *)
Definition filterObj (obj : JsObject) (allowedFields : list string) : JsObject :=
  map_fold (fun el v newObj =>
              if bool_decide (el ∈ allowedFields) then <[el := v]> newObj else newObj)
           ∅ obj.

Definition notForPasswords : Err :=
  AppError "This route is not for password updates. Please use /updatemypassword route." 400.

Definition deactivate : UserUpdate :=
  mkUserUpdate None None None None None None None None None (Some false).

Section UserController.
Context `{Library}.

(** [updateMe]; [u] is [req.user], set by [protect]. *)
Definition updateMe (req : Request) (db : Db) : Run :=
  match req_user req with
  | None => reject db [] (TypeError "Cannot read property 'id' of undefined")
  | Some u =>
      if truthy_prop (body req !! "password") || truthy_prop (body req !! "passwordConfirm")
      then finish db [Next (Some notForPasswords)]
      else
        let filteredBody := filterObj (body req) ["name"; "email"] in
        let filteredBody :=
          match file_filename req with
          | Some filename => <["photo" := JStr filename]> filteredBody
          | None => filteredBody
          end in
        match castUserUpdate filteredBody with
        | inl e => reject db [] e
        | inr upd =>
            match User_findByIdAndUpdate (user_id u) upd true db with
            | inl e => reject db [] e
            | inr (db', updatedUser) => finish db' [Send 200 (data_user updatedUser)]
            end
        end
  end.

(** [deleteMe]. *)
Definition deleteMe (req : Request) (db : Db) : Run :=
  match req_user req with
  | None => reject db [] (TypeError "Cannot read property 'id' of undefined")
  | Some u =>
      match User_findByIdAndUpdate (user_id u) deactivate false db with
      | inl e => reject db [] e
      | inr (db', _) => finish db' [Send 204 data_null]
      end
  end.

End UserController.

(* ================================================================== *)
(** * models/tourModel.ts *)
(* ================================================================== *)

(** The setter of [ratingsAverage]: [val => Math.round(val * 10) / 10]. *)
Definition ratingsAverage_set (val : Number) : Number :=
  (num (Math_round (val * num 10 1)) 1 / num 10 1)%Qc.

(** The validator of [priceDiscount]: [val < this.price]; [this_price] is
    what [this.price] evaluates to, [undefined] where [this] is not the
    document. *)
Definition priceDiscount_validator (val : Number) (this_price : option Number) : bool :=
  match this_price with
  | Some p => bool_decide (val < p)%Qc
  | None => false
  end.

(** [min] and [max] of [ratingsAverage]. *)
Definition validate_ratingsAverage (v : Number) : list string :=
  (if bool_decide (v < num 1 1)%Qc then ["Rating must be above 1.0"] else [])
  ++ (if bool_decide (num 5 1 < v)%Qc then ["Rating must be below 5.0"] else []).

Definition validate_priceDiscount (v : option Number) (this_price : option Number) : list string :=
  match v with
  | None => []
  | Some val =>
      if priceDiscount_validator val this_price then []
      else ["Discount price ({VALUE}) should be lower than regular price"]
  end.

(** [tourSchema.pre(/^find/)]: [this.find({ secretTour: { $ne: true } })]. *)
Definition Tour_preFind (q : Tour -> bool) : Tour -> bool :=
  fun t => q t && negb (secretTour t).

Definition Tour_byId (id : string) : Tour -> bool := fun t => String.eqb (tour_id t) id.

Definition Tour_findById (id : string) (db : Db) : option Tour :=
  findFirst (Tour_preFind (Tour_byId id)) (tours db).

Record TourUpdate : Type := mkTourUpdate {
  upd_price : option Number;
  upd_priceDiscount : option Number;
  upd_ratingsAverage : option Number;
  upd_ratingsQuantity : option Number;
  upd_secretTour : option bool
}.

(** The update of a tour: the setter of [ratingsAverage] is applied to
    the value given. *)
Definition Tour_applyUpdate (upd : TourUpdate) (t : Tour) : Tour :=
  mkTour (tour_id t)
         (or_else (upd_price upd) (price t))
         (or_keep (upd_priceDiscount upd) (priceDiscount t))
         (or_else (ratingsAverage_set <$> upd_ratingsAverage upd) (ratingsAverage t))
         (or_else (upd_ratingsQuantity upd) (ratingsQuantity t))
         (or_else (upd_secretTour upd) (secretTour t)).

(** Update validators: on the paths of the update, with [this] not the
    document. *)
Definition Tour_updateValidators (upd : TourUpdate) : list string :=
  validate_priceDiscount (upd_priceDiscount upd) None
  ++ from_option validate_ratingsAverage [] (ratingsAverage_set <$> upd_ratingsAverage upd).

(** [Tour.findByIdAndUpdate(id, update, { new: true, runValidators })]. *)
Definition Tour_findByIdAndUpdate (id : string) (upd : TourUpdate) (runValidators : bool)
    (db : Db) : Err + (Db * option Tour) :=
  match (if runValidators then Tour_updateValidators upd else []) with
  | (_ :: _) as errors => inl (ValidationError errors)
  | [] =>
      let q := Tour_preFind (Tour_byId id) in
      inr (set_tours (updateFirst q (Tour_applyUpdate upd) (tours db)) db,
           Tour_applyUpdate upd <$> findFirst q (tours db))
  end.

(** [Tour.findByIdAndDelete(id)]. *)
Definition Tour_findByIdAndDelete (id : string) (db : Db) : Db * option Tour :=
  let q := Tour_preFind (Tour_byId id) in
  (set_tours (deleteFirst q (tours db)) db, findFirst q (tours db)).

(** Validation of a new tour: [this] is the document. *)
Definition Tour_validate (t : Tour) : list string :=
  validate_priceDiscount (priceDiscount t) (Some (price t))
  ++ validate_ratingsAverage (ratingsAverage t).

(** [Tour.create(doc)]: setters, validation, insertion. *)
Definition Tour_create (t : Tour) (db : Db) : Err + (Db * Tour) :=
  let t' := mkTour (tour_id t) (price t) (priceDiscount t)
                   (ratingsAverage_set (ratingsAverage t)) (ratingsQuantity t) (secretTour t) in
  match Tour_validate t' with
  | (_ :: _) as errors => inl (ValidationError errors)
  | [] => inr (set_tours (tours db ++ [t']) db, t')
  end.

(* ================================================================== *)
(** * models/reviewModel.ts *)
(* ================================================================== *)

Definition Review_byId (id : string) : Review -> bool :=
  fun r => String.eqb (review_id r) id.

(** A group of the aggregation
    [{ $group: { _id: '$tour', nRating: { $sum: 1 }, avgRating: { $avg: '$rating' } } }]. *)
Record Stats : Type := mkStats {
  stats_id : string;
  nRating : Number;
  avgRating : Number
}.

Definition count {A : Type} (l : list A) : Number := num (Z.of_nat (length l)) 1.

Definition sum_rating (rs : list Review) : Number :=
  foldr (fun r acc => (rating r + acc)%Qc) (num 0 1) rs.

(** [$avg] over a non-empty group. *)
Definition avg_rating (rs : list Review) : Number := (sum_rating rs / count rs)%Qc.

(** [{ $match: { tour: tourId } }]. *)
Definition aggregate_match (tourId : string) (rs : list Review) : list Review :=
  List.filter (fun r => String.eqb (review_tour r) tourId) rs.

(** The [$group] stage: one group per distinct tour of its input. *)
Definition aggregate_group (rs : list Review) : list Stats :=
  map (fun k =>
         let g := List.filter (fun r => String.eqb (review_tour r) k) rs in
         mkStats k (count g) (avg_rating g))
      (remove_dups (map review_tour rs)).

Definition ratingsUpdate (quantity average : Number) : TourUpdate :=
  mkTourUpdate None None (Some average) (Some quantity) None.

(** An awaited query whose result is not used. *)
Definition awaited {B : Type} (r : Err + (Db * B)) : Err + Db :=
  match r with
  | inl e => inl e
  | inr (db, _) => inr db
  end.

(** [reviewSchema.statics.calcAverageRatings]. *)
Definition calcAverageRatings (tourId : string) (db : Db) : Err + Db :=
  let stats := aggregate_group (aggregate_match tourId (reviews db)) in
  match stats with
  | s :: _ =>
      awaited (Tour_findByIdAndUpdate tourId (ratingsUpdate (nRating s) (avgRating s)) false db)
  | [] =>
      awaited (Tour_findByIdAndUpdate tourId (ratingsUpdate (num 0 1) (num 45 10)) false db)
  end.

(** Validators of a review: [review] required, [rating] between 1 and 5. *)
Definition validate_review (v : string) : list string :=
  if String.eqb v "" then ["Review text cannot be empty."] else [].

Definition validate_rating (v : Number) : list string :=
  (if bool_decide (v < num 1 1)%Qc then ["Path `rating` is less than minimum allowed value (1)."] else [])
  ++ (if bool_decide (num 5 1 < v)%Qc then ["Path `rating` is more than maximum allowed value (5)."] else []).

(** The unique index [{ tour: 1, user: 1 }]. *)
Definition samePair (r r' : Review) : bool :=
  String.eqb (review_tour r) (review_tour r') && String.eqb (review_user r) (review_user r').

(** [Review.create(doc)]: validation, insertion under the unique index,
    then the [post('save')] hook, which starts [calcAverageRatings] on the
    review's tour and does not wait for it: a rejection of it is lost. *)
Definition Review_create (r : Review) (db : Db) : Err + (Db * Review) :=
  match validate_review (review r) ++ validate_rating (rating r) with
  | (_ :: _) as errors => inl (ValidationError errors)
  | [] =>
      if existsb (samePair r) (reviews db) then inl DuplicateKeyError
      else
        let db1 := set_reviews (reviews db ++ [r]) db in
        match calcAverageRatings (review_tour r) db1 with
        | inr db2 => inr (db2, r)
        | inl _ => inr (db1, r)
        end
  end.

Record ReviewUpdate : Type := mkReviewUpdate {
  upd_review : option string;
  upd_rating : option Number;
  upd_review_user : option string;
  upd_review_tour : option string
}.

Definition Review_applyUpdate (upd : ReviewUpdate) (r : Review) : Review :=
  mkReview (review_id r)
           (or_else (upd_review upd) (review r))
           (or_else (upd_rating upd) (rating r))
           (or_else (upd_review_user upd) (review_user r))
           (or_else (upd_review_tour upd) (review_tour r)).

Definition Review_updateValidators (upd : ReviewUpdate) : list string :=
  from_option validate_review [] (upd_review upd)
  ++ from_option validate_rating [] (upd_rating upd).

(** The [post(/^findOneAnd/)] hook: [this.rev] is the document the
    [pre(/^findOneAnd/)] hook read with [this.findOne()]; reading
    [this.rev.constructor] of [null] throws. *)
Definition postFindOneAnd (rev : option Review) (db : Db) : Err + Db :=
  match rev with
  | None => inl (TypeError "Cannot read property 'constructor' of null")
  | Some r => calcAverageRatings (review_tour r) db
  end.

(** [Review.findByIdAndUpdate(id, update, { new: true, runValidators })]
    with its two [findOneAnd] hooks. *)
Definition Review_findByIdAndUpdate (id : string) (upd : ReviewUpdate) (runValidators : bool)
    (db : Db) : Err + (Db * option Review) :=
  let q := Review_byId id in
  let rev := findFirst q (reviews db) in
  match (if runValidators then Review_updateValidators upd else []) with
  | (_ :: _) as errors => inl (ValidationError errors)
  | [] =>
      if from_option
           (fun r => existsb (samePair (Review_applyUpdate upd r)) (deleteFirst q (reviews db)))
           false rev
      then inl DuplicateKeyError
      else
        let db1 := set_reviews (updateFirst q (Review_applyUpdate upd) (reviews db)) db in
        match postFindOneAnd rev db1 with
        | inl e => inl e
        | inr db2 => inr (db2, Review_applyUpdate upd <$> rev)
        end
  end.

(** [Review.findByIdAndDelete(id)] with its two [findOneAnd] hooks. *)
Definition Review_findByIdAndDelete (id : string) (db : Db) : Err + (Db * option Review) :=
  let q := Review_byId id in
  let rev := findFirst q (reviews db) in
  let db1 := set_reviews (deleteFirst q (reviews db)) db in
  match postFindOneAnd rev db1 with
  | inl e => inl e
  | inr db2 => inr (db2, rev)
  end.

(* ================================================================== *)
(** * controllers/tourController.ts *)
(* ================================================================== *)

Definition noTour : Err := AppError "No tour found with that ID" 404.
Definition badLatLng : Err :=
  AppError "Please provide latitude and longitude in the format lat, lng." 400.

(** [.populate({ path: 'reviews' })]: the virtual [reviews] of a tour,
    the reviews whose [tour] is the tour's id. *)
Definition populateReviews (t : Tour) (db : Db) : list Review :=
  List.filter (fun r => String.eqb (review_tour r) (tour_id t)) (reviews db).

(** [getTour]; [id] is [req.params.id]. *)
Definition getTour (id : string) (db : Db) : Run :=
  match Tour_findById id db with
  | None => finish db [Next (Some noTour)]
  | Some t => finish db [Send 200 (data_tour t (populateReviews t db))]
  end.

(** [deleteTour]. *)
Definition deleteTour (id : string) (db : Db) : Run :=
  match Tour_findByIdAndDelete id db with
  | (_, None) => finish db [Next (Some noTour)]
  | (db', Some _) => finish db' [Send 204 data_null]
  end.

Section TourController.
Context `{Library}.




End TourController.

(* ================================================================== *)
(** * controllers/errorController.ts *)
(* ================================================================== *)

Inductive NodeEnv : Type := development | production | otherEnv.

(** What the global error handler reads of an error, its message texts
    apart, once [err.statusCode = err.statusCode || 500] has run;
    [view_name] is the [name] that the copy [{ ...err }] has, for a
    library error the name the library sets on the error itself. *)
Record ErrorView : Type := mkErrorView {
  view_name : string;
  view_code : option Z;
  view_statusCode : Z;
  view_isOperational : bool
}.

(** The response the handler sends: [res.status(code).json(..)] or
    [res.status(code).render(..)]. *)
Inductive Sent : Type :=
| sent_json (status : Z)
| sent_render (status : Z).

Section ErrorController.
(** The value [AppError] gives to [isOperational]; the class is not among
    the sources. *)
Variable operational : bool.

Definition newAppError (statusCode : Z) : ErrorView :=
  mkErrorView "Error" None statusCode operational.

Definition viewOf (err : Err) : ErrorView :=
  match err with
  | AppError _ statusCode =>
      mkErrorView "Error" None (if statusCode =? 0 then 500 else statusCode) operational
  | Thrown name code _ => mkErrorView name code 500 false
  end.

(** The replacements of the production branch, in their order:
    handleCastErrorDB, handleDuplicateFieldsDB, handleValidationErrorDB
    (status 400), handleJWTError, handleJWTExpiredError (status 401). *)
Definition translate (error : ErrorView) : ErrorView :=
  let error := if String.eqb (view_name error) "CastError" then newAppError 400 else error in
  let error := if bool_decide (view_code error = Some 11000) then newAppError 400 else error in
  let error :=
    if String.eqb (view_name error) "ValidationError" then newAppError 400 else error in
  let error :=
    if String.eqb (view_name error) "JsonWebTokenError" then newAppError 401 else error in
  let error :=
    if String.eqb (view_name error) "TokenExpiredError" then newAppError 401 else error in
  error.

Definition sendErrorDev (err : ErrorView) (originalUrl : string) : Sent :=
  if startsWith originalUrl "/api" then sent_json (view_statusCode err)
  else sent_render (view_statusCode err).

Definition sendErrorProd (err : ErrorView) (originalUrl : string) : Sent :=
  if startsWith originalUrl "/api" then
    if view_isOperational err then sent_json (view_statusCode err)
    else sent_json 500
  else
    if view_isOperational err then sent_render (view_statusCode err)
    else sent_render (view_statusCode err).

(** The default export; no response is sent when NODE_ENV is neither
    'development' nor 'production'. *)
Definition globalErrorHandler (NODE_ENV : NodeEnv) (originalUrl : string) (err : Err)
    : option Sent :=
  match NODE_ENV with
  | development => Some (sendErrorDev (viewOf err) originalUrl)
  | production => Some (sendErrorProd (translate (viewOf err)) originalUrl)
  | otherEnv => None
  end.
End ErrorController.

(* ================================================================== *)
(** * A stand-in library and sample data for the closed examples *)
(* ================================================================== *)

Definition sampleSecret : string := "s3cret".

Definition sampleLibrary : Library := {|
  bcrypt_hash s cost := "$2a$12$" +:+ s;
  bcrypt_compare candidate hash := String.eqb ("$2a$12$" +:+ candidate) hash;
  sha256_hex s := "sha256(" +:+ s +:+ ")";
  jwt_sign id secret := id +:+ "." +:+ secret;
  jwt_verify token secret :=
    if String.eqb token ("u1." +:+ secret) then inr (mkDecoded "u1" 1700000000)
    else inl (Thrown "JsonWebTokenError" None ["invalid signature"]);
  castString v := match v with JStr s => Some s | _ => None end;
  castNumber v := match v with JNum n => Some n | _ => None end;
  castBoolean v := match v with JBool b => Some b | _ => None end;
  castDate v := None;
  toLowerCase s := s;
  isEmail s := negb (String.eqb s "");
  toNumber s := if String.eqb s "400" then Some (num 400 1) else None;
  geoWithin lng lat r := inr (fun _ => true)
|}.

Definition sampleUser : User :=
  mkUser "u1" "Ana" "ana@example.com" "default.jpg" role_user
         (Some "$2a$12$old-password") None None None None (Some true).

Definition emptyRequest : Request := mkRequest None None ∅ None None None.

Definition sampleNewPassword : UserDoc :=
  assign_passwordConfirm (Some "correct horse")
    (assign_password (Some "correct horse") (loaded sampleUser)).

Definition set_active (a : option bool) (u : User) : User :=
  mkUser (user_id u) (user_name u) (email u) (photo u) (role u) (password u)
         (passwordConfirm u) (passwordChangedAt u)
         (passwordResetToken u) (passwordResetExpires u) a.

(** The database with the current user's document removed, for comparison
    with the database [deleteMe] leaves. *)
Definition withoutUser (id : string) (db : Db) : Db :=
  set_users (deleteFirst (User_preFind (User_byId id)) (users db)) db.

Definition sampleTour : Tour := mkTour "t1" (num 497 1) None (num 45 10) (num 0 1) false.

Definition sampleReviews : list Review :=
  [mkReview "r1" "Great" (num 4 1) "u1" "t1";
   mkReview "r2" "Good" (num 4 1) "u2" "t1";
   mkReview "r3" "Superb" (num 5 1) "u3" "t1"].

Definition sampleDb : Db := mkDb [sampleUser] [sampleTour] sampleReviews.

(** The update [calcAverageRatings] sends. *)
Definition recomputed (t : string) (db : Db) : TourUpdate :=
  match aggregate_match t (reviews db) with
  | [] => ratingsUpdate (num 0 1) (num 45 10)
  | (_ :: _) as m => ratingsUpdate (count m) (avg_rating m)
  end.

Definition forgedRequest : Request :=
  mkRequest (Some "Bearer forged") None ∅ None None None.

Definition bearerRequest : Request :=
  mkRequest (Some "Bearer u1.s3cret") None ∅ None None None.

(** A user who asked for a reset token and then deactivated the account. *)
Definition deactivatedUser : User :=
  mkUser "u2" "Bo" "bo@example.com" "default.jpg" role_user
         (Some "$2a$12$old-password") None None
         (Some "sha256(abc)") (Some 2000) (Some false).

Definition resetRequest : Request :=
  mkRequest None None
            (<["password" := JStr "correct horse"]>
               (<["passwordConfirm" := JStr "correct horse"]> ∅))
            None None None.

(** A user who asked for a reset token and is still active. *)
Definition resettingUser : User :=
  mkUser "u3" "Cy" "cy@example.com" "default.jpg" role_user
         (Some "$2a$12$old-password") None None
         (Some "sha256(abc)") (Some 2000) (Some true).




(** [v'] differs from [v] at most in [name], [email] and, unless
    [keepPhoto], [photo]. *)
Definition sameButProfile (keepPhoto : bool) (v v' : User) : Prop :=
  user_id v' = user_id v
  /\ role v' = role v
  /\ password v' = password v
  /\ passwordConfirm v' = passwordConfirm v
  /\ passwordChangedAt v' = passwordChangedAt v
  /\ passwordResetToken v' = passwordResetToken v
  /\ passwordResetExpires v' = passwordResetExpires v
  /\ active v' = active v
  /\ (keepPhoto = true -> photo v' = photo v).

Definition emptyPasswordRequest : Request :=
  mkRequest None None
            (<["password" := JStr ""]> (<["name" := JStr "Eve"]> ∅))
            None (Some sampleUser) (Some sampleUser).

Definition renameRequest : Request :=
  mkRequest None None
            (<["role" := JStr "admin"]> (<["name" := JStr "Eve"]> ∅))
            None (Some sampleUser) (Some sampleUser).

(** The key of the unique index of reviews. *)
Definition pairOf (r : Review) : string * string := (review_tour r, review_user r).

(** No two reviews have the same tour and user. *)
Definition uniquePairs (db : Db) : Prop := NoDup (pairOf <$> reviews db).

Definition overpricedDiscount : Tour :=
  mkTour "t2" (num 100 1) (Some (num 150 1)) (num 45 10) (num 0 1) false.

Definition secondReview : Review := mkReview "r5" "Again" (num 1 1) "u1" "t1".

Definition fourthReview : Review := mkReview "r4" "Fine" (num 3 1) "u4" "t1".

(* ================================================================== *)
(** * Further handlers of authController, the routers, reviewController *)
(* ================================================================== *)

Definition noLongerLoggedIn : Err :=
  AppError "You are no longer logged in. Please log in again." 401.
Definition userDoesNotExist : Err := AppError "User does not exist." 404.
Definition currentPasswordIncorrect : Err :=
  AppError "Your current password is incorrect." 401.

(** The user a response body carries, if any. *)
Definition payload_user (p : Payload) : option User :=
  match p with
  | token_user _ u => Some u
  | data_user u => u
  | _ => None
  end.

(** The paths of the user schema present in an object. *)
Definition presentPaths (obj : JsObject) : list string :=
  List.filter (fun path => bool_decide (is_Some (obj !! path)))
              ["name"; "email"; "photo"; "role"; "password"; "passwordConfirm";
               "passwordChangedAt"; "passwordResetToken"; "passwordResetExpires"; "active"].

Section FurtherAuth.
Context `{Library}.
Variable JWT_SECRET : string.

(** [userSchema.methods.correctPassword]: [bcrypt.compare] rejects
    arguments that are not strings. *)
Definition correctPassword (candidatePassword : option JsValue) (userPassword : option string)
    : Err + bool :=
  match candidatePassword, userPassword with
  | Some (JStr candidate), Some hash => inr (bcrypt_compare candidate hash)
  | _, _ => inl (Thrown "Error" None ["Illegal arguments"])
  end.

(** [isLoggedIn]: reads the jwt cookie only. *)
Definition isLoggedIn (req : Request) (db : Db) : Run :=
  if truthy_str (cookies_jwt req) then
    match cookies_jwt req with
    | None => finish db [Next (Some noLongerLoggedIn)]
    | Some token =>
        match jwt_verify token JWT_SECRET with
        | inl e => reject db [] e
        | inr decoded =>
            match User_findById (decoded_id decoded) db with
            | None => finish db [Next (Some noLongerLoggedIn)]
            | Some currentUser =>
                if changedPasswordAfter currentUser (decoded_iat decoded)
                then finish db [Next (Some noLongerLoggedIn)]
                else finish db [Send 200 (data_user (Some currentUser))]
            end
        end
    end
  else finish db [Next (Some noLongerLoggedIn)].

(** The two assignments of [updatePassword] to the user it found. *)
Definition updateAssignments (req : Request) (u : User) : UserDoc :=
  let d1 := assign_password (body req !! "password" ≫= castString) (loaded u) in
  assign_passwordConfirm (body req !! "passwordConfirm" ≫= castString) d1.

(** [updatePassword]; [now] is the time of the request. *)
Definition updatePassword (req : Request) (now : Z) (db : Db) : Run :=
  match req_user req with
  | None => reject db [] (TypeError "Cannot read property 'id' of undefined")
  | Some current =>
      match User_findOne (User_byId (user_id current)) true db with
      | None => finish db [Next (Some userDoesNotExist)]
      | Some u =>
          match correctPassword (body req !! "passwordCurrent") (password u) with
          | inl e => reject db [] e
          | inr false => finish db [Next (Some currentPasswordIncorrect)]
          | inr true =>
              match User_save true now (updateAssignments req u) db with
              | inl e => reject db [] e
              | inr (db', saved) => finish db' (createSendToken JWT_SECRET (doc saved) 200)
              end
          end
      end
  end.

(** Step 2 of [forgotPassword], on the user it found:
    [user.createPasswordResetToken()] and
    [user.save({ validateBeforeSave: false })]. *)
Definition issueResetToken (u : User) (randomBytes : list Byte.byte) (now : Z) (db : Db)
    : Err + (Db * string) :=
  let (resetToken, d) := createPasswordResetToken randomBytes now (loaded u) in
  match User_save false now d db with
  | inl e => inl e
  | inr (db', _) => inr (db', resetToken)
  end.

(** [new User(req.body)]: the paths of the schema are cast from the
    object, [email] through its lowercase setter, and the defaults of
    [photo], [role] and [active] fill the absent ones; [id] is the fresh
    [_id].  A value that does not cast, or a role outside the enum, is
    reported by the validation of the save. *)
Definition newUser (id : string) (obj : JsObject) : Err + UserDoc :=
  match
    (n ← castPath castString (obj !! "name");
     e ← castPath castString (obj !! "email");
     p ← castPath castString (obj !! "photo");
     r ← castPath castString (obj !! "role");
     pw ← castPath castString (obj !! "password");
     pc ← castPath castString (obj !! "passwordConfirm");
     ca ← castPath castDate (obj !! "passwordChangedAt");
     rt ← castPath castString (obj !! "passwordResetToken");
     re ← castPath castDate (obj !! "passwordResetExpires");
     a ← castPath castBoolean (obj !! "active");
     Some (n, e, p, r, pw, pc, ca, rt, re, a))
  with
  | None => inl (ValidationError ["Cast failed"])
  | Some (n, e, p, r, pw, pc, ca, rt, re, a) =>
      match from_option parseRole (Some role_user) r with
      | None => inl (ValidationError ["`role` is not a valid enum value for path `role`."])
      | Some r' =>
          inr (mkUserDoc
                 (mkUser id (default "" n) (default "" (toLowerCase <$> e))
                         (default "default.jpg" p) r' pw pc ca rt re
                         (Some (default true a)))
                 (presentPaths obj) true)
      end
  end.

(** [signup]; [id] is the [_id] of the new document, [mail] the error of
    [new Email(newUser, url).sendWelcome()], if it fails. *)
Definition signup (id : string) (mail : option Err) (req : Request) (now : Z) (db : Db) : Run :=
  match newUser id (body req) with
  | inl e => reject db [] e
  | inr d =>
      match User_save true now d db with
      | inl e => reject db [] e
      | inr (db', saved) =>
          match mail with
          | Some e => reject db' [] e
          | None => finish db' (createSendToken JWT_SECRET (doc saved) 201)
          end
      end
  end.

(** The user router behind [router.use(authController.protect)]: a
    handler mounted after it runs only when [protect] called [next]
    without an error, and on the request [protect] left. *)
Definition behindProtect (handler : Request -> Db -> Db * list Effect)
    (req : Request) (db : Db) : Db * list Effect :=
  let (req', run) := protect JWT_SECRET req db in
  match catchAsync run with
  | (db', [Next None]) => handler req' db'
  | stopped => stopped
  end.

(** [router.delete('/deleteme', userController.deleteMe)]. *)
Definition deleteMeRoute (req : Request) (db : Db) : Db * list Effect :=
  behindProtect (fun req' db' => catchAsync (deleteMe req' db')) req db.

(** A route behind [router.use(authController.restrictTo('admin'))]:
    the synchronous throw of a middleware is passed to [next] by Express. *)
Definition adminRoute (handler : Request -> Db -> Db * list Effect)
    (req : Request) (db : Db) : Db * list Effect :=
  behindProtect
    (fun req' db' =>
       match restrictTo [role_admin] req' with
       | inl e => (db', [Next (Some e)])
       | inr (req'', [Next None]) => handler req'' db'
       | inr (_, stopped) => (db', stopped)
       end)
    req db.
End FurtherAuth.

(** [setTourUserIds]; [tourId] is [req.params.tourId], undefined on the
    routes that are not nested.  It returns the request it leaves and its
    call of [next]; reading [req.user.id] without user throws. *)
Definition setTourUserIds (tourId : option string) (req : Request)
    : Err + (Request * list Effect) :=
  let body1 :=
    if negb (truthy_prop (body req !! "tour"))
    then match tourId with
         | Some t => <["tour" := JStr t]> (body req)
         | None => delete "tour" (body req)
         end
    else body req in
  if negb (truthy_prop (body1 !! "user")) then
    match req_user req with
    | None => inl (TypeError "Cannot read property 'id' of undefined")
    | Some u =>
        inr (mkRequest (headers_authorization req) (cookies_jwt req)
                       (<["user" := JStr (user_id u)]> body1)
                       (file_filename req) (req_user req) (locals_user req),
             [Next None])
    end
  else
    inr (mkRequest (headers_authorization req) (cookies_jwt req) body1
                   (file_filename req) (req_user req) (locals_user req),
         [Next None]).

(** What [getDistances] does to the outside: its payload is the list of
    the [_id] and [distance] of the aggregation's results. *)
Inductive DistanceEffect : Type :=
| distance_next (e : option Err)
| distance_send (status : Z) (data : list (string * Number)).

Section Distances.
Context `{Library}.
(** The [$geoNear] stage on the tours, for the coordinates of [near] and
    the [distanceMultiplier]: the server rejects it or returns the tours
    with their distances. *)
Variable geoNear : option Number -> option Number -> Number -> list Tour
                   -> Err + list (Tour * Number).

(** [unit === 'mi' ? 0.000621371 : 0.001]. *)
Definition multiplier (unit : string) : Number :=
  if String.eqb unit "mi" then num 621371 1000000000 else num 1 1000.

(** [getDistances]; [latlng] and [unit] are the path parameters.  The
    call of [next] for a missing coordinate is not followed by a
    [return]; an aggregation runs no find hook. *)
Definition getDistances (latlng unit : string) (db : Db) : list DistanceEffect :=
  let parts := split "," latlng in
  let lat := nth_error parts 0 in
  let lng := nth_error parts 1 in
  let called :=
    if negb (truthy_str lat) || negb (truthy_str lng)
    then [distance_next (Some badLatLng)] else [] in
  match geoNear (lng ≫= toNumber) (lat ≫= toNumber) (multiplier unit) (tours db) with
  | inl e => called ++ [distance_next (Some e)]
  | inr distances =>
      called ++ [distance_send 200 (map (fun td => (tour_id td.1, td.2)) distances)]
  end.
End Distances.

(** The document a password change stores in place of [u]: the hash, no
    [passwordConfirm], the time of the change, and, after a reset, no
    reset token. *)
Definition withNewPassword (hash : string) (changedAt : Z) (afterReset : bool) (u : User)
    : User :=
  mkUser (user_id u) (user_name u) (email u) (photo u) (role u)
         (Some hash) None (Some changedAt)
         (if afterReset then None else passwordResetToken u)
         (if afterReset then None else passwordResetExpires u)
         (active u).

(** The query of [login] for an address. *)
Definition loginRequest (address candidate : string) : Request :=
  mkRequest None None
            (<["email" := JStr address]> (<["password" := JStr candidate]> ∅))
            None None None.

Definition sampleRandomBytes : list Byte.byte := [Byte.x0a; Byte.xff].


Definition cookieRequest : Request :=
  mkRequest None (Some "u1.s3cret") ∅ None None None.

Definition bearerWithoutToken : Request :=
  mkRequest (Some "Bearer") (Some "u1.s3cret") ∅ None None None.

(** A signup that asks for the role of an administrator. *)
Definition signupRequest : Request :=
  mkRequest None None
            (<["name" := JStr "Dee"]>
               (<["email" := JStr "dee@example.com"]>
                  (<["password" := JStr "correct horse"]>
                     (<["passwordConfirm" := JStr "correct horse"]>
                        (<["role" := JStr "admin"]> ∅)))))
            None None None.

(** The document [signup] stores for the new document [u]. *)
Definition withHash (hash : string) (u : User) : User :=
  mkUser (user_id u) (user_name u) (email u) (photo u) (role u)
         (Some hash) None (passwordChangedAt u)
         (passwordResetToken u) (passwordResetExpires u) (active u).

Definition sampleAdmin : User :=
  mkUser "u1" "Ana" "ana@example.com" "default.jpg" role_admin
         (Some "$2a$12$old-password") None None None None (Some true).



(** The bounds [min: 1] and [max: 5] of the two schemas. *)
Definition ratingInRange (v : Number) : Prop := (num 1 1 <= v)%Qc /\ (v <= num 5 1)%Qc.

(** Every rating of a review and every ratingsAverage of a tour is within
    the bounds. *)
Definition ratingsInRange (db : Db) : Prop :=
  (forall r, r ∈ reviews db -> ratingInRange (rating r))
  /\ (forall t, t ∈ tours db -> ratingInRange (ratingsAverage t)).



(** What the handlers of the routes of administrators do to the outside:
    their payload is the user document itself, or [null]. *)
Inductive UserEffect : Type :=
| user_next (e : option Err)
| user_send (status : Z) (data : option User).

Definition noUser : Err := AppError "No user found with that ID" 404.



Section AdminHandlers.
Context `{Library}.

(** [updateUser]: the body is the update. *)
Definition updateUser (id : string) (req : Request) (db : Db) : Db * list UserEffect :=
  match castUserUpdate (body req) with
  | inl e => (db, [user_next (Some e)])
  | inr upd =>
      match User_findByIdAndUpdate id upd true db with
      | inl e => (db, [user_next (Some e)])
      | inr (_, None) => (db, [user_next (Some noUser)])
      | inr (db', Some user) => (db', [user_send 200 (Some user)])
      end
  end.
End AdminHandlers.

(** An update of an administrator that sets a password. *)
Definition plainPasswordRequest : Request :=
  mkRequest None None (<["password" := JStr "correct horse"]> ∅) None None None.


(** A review posted in the name of another user. *)
Definition foreignReviewRequest : Request :=
  mkRequest None None (<["user" := JStr "u2"]> (<["rating" := JNum (num 1 1)]> ∅))
            None (Some sampleUser) None.

(** A stand-in for the [$geoNear] stage that finds no tour. *)
Definition noTourNear (lng lat : option Number) (m : Number) (ts : list Tour)
    : Err + list (Tour * Number) := inr [].

(* ================================================================== *)
(** * The JavaScript helpers on sample values *)
(* ================================================================== *)

Example split_latlng : split "," "34.107870,-118.089951" = ["34.107870"; "-118.089951"].
Proof. reflexivity. Qed.

Example split_no_separator : split "," "34.107870" = ["34.107870"].
Proof. reflexivity. Qed.

Example split_trailing : split "," "34.107870," = ["34.107870"; ""].
Proof. reflexivity. Qed.

Example split_empty : split "," "" = [""].
Proof. reflexivity. Qed.

Example getToken_bearer : getToken bearerRequest = Some "u1.s3cret".
Proof. reflexivity. Qed.

Example getToken_bearer_only :
  getToken (mkRequest (Some "Bearer") (Some "cookie-token") ∅ None None None) = None.
Proof. reflexivity. Qed.

Example getToken_cookie :
  getToken (mkRequest (Some "Basic abc") (Some "cookie-token") ∅ None None None)
  = Some "cookie-token".
Proof. reflexivity. Qed.

Example Math_round_half_up : Math_round (num 5 2) = 3 /\ Math_round (num (-5) 2) = -2.
Proof. split; reflexivity. Qed.

Example toHex_bytes : toHex [Byte.x00; Byte.x0f; Byte.xa5; Byte.xff] = "000fa5ff".
Proof. reflexivity. Qed.

(* ================================================================== *)
(** * Collections: lemmas *)
(* ================================================================== *)

Section CollectionLemmas.
Context {A : Type}.
Implicit Types (q : A -> bool) (f : A -> A) (l : list A).

Lemma findFirst_Some q l x :
  findFirst q l = Some x -> x ∈ l /\ q x = true.
Proof.
  induction l as [|y l IH]; simpl; [discriminate|].
  destruct (q y) eqn:Hy.
  - intros [= <-]. split; [left|assumption].
  - intros Hx. destruct (IH Hx). split; [by right|assumption].
Qed.

Lemma findFirst_None q l :
  findFirst q l = None <-> forall x, x ∈ l -> q x = false.
Proof.
  induction l as [|y l IH]; simpl.
  - split; [|done]. intros _ x Hx. inversion Hx.
  - destruct (q y) eqn:Hy.
    + split; [discriminate|]. intros Hall.
      rewrite (Hall y) in Hy; [discriminate|left].
    + rewrite IH. split.
      * intros Hall x Hx. inversion Hx; subst; [assumption|by apply Hall].
      * intros Hall x Hx. apply Hall. by right.
Qed.

Lemma updateFirst_None q f l : findFirst q l = None -> updateFirst q f l = l.
Proof.
  induction l as [|y l IH]; simpl; [done|].
  destruct (q y); [discriminate|]. intros Hn. by rewrite IH.
Qed.


Lemma updateFirst_elem q f l x :
  findFirst q l = Some x -> f x ∈ updateFirst q f l.
Proof.
  induction l as [|y l IH]; simpl; [discriminate|].
  destruct (q y).
  - intros [= <-]. left.
  - intros Hx. right. by apply IH.
Qed.


(** An update of the first match relates every document to its
    successor by any reflexive relation the update respects. *)
Lemma updateFirst_Forall2 (R : A -> A -> Prop) q f l :
  (forall x, R x x) -> (forall x, q x = true -> R x (f x)) ->
  Forall2 R l (updateFirst q f l).
Proof.
  intros Hrefl Hf. induction l as [|y l IH]; simpl; [constructor|].
  destruct (q y) eqn:Hy; constructor; auto.
  clear IH. induction l; constructor; auto.
Qed.

Lemma deleteFirst_subseteq q l x : x ∈ deleteFirst q l -> x ∈ l.
Proof.
  induction l as [|y l IH]; simpl; [done|].
  destruct (q y).
  - intros Hx. by right.
  - intros Hx. inversion Hx; subst; [left|right; by apply IH].
Qed.

Lemma deleteFirst_keeps q l x : x ∈ l -> q x = false -> x ∈ deleteFirst q l.
Proof.
  induction l as [|y l IH]; simpl; [done|].
  intros Hx Hq. destruct (q y) eqn:Hy.
  - inversion Hx; subst; [congruence|assumption].
  - inversion Hx; subst; [left|right; by apply IH].
Qed.

Lemma updateFirst_keeps q f l x : x ∈ l -> q x = false -> x ∈ updateFirst q f l.
Proof.
  induction l as [|y l IH]; simpl; [done|].
  intros Hx Hq. destruct (q y) eqn:Hy.
  - inversion Hx; subst; [congruence|by right].
  - inversion Hx; subst; [left|right; by apply IH].
Qed.
End CollectionLemmas.

(* ================================================================== *)
(** * restrictTo *)
(* ================================================================== *)

(** C5.  For every list of roles and every request with an authenticated
    user, the middleware of [restrictTo roles] passes the 403 error
    'You do not have permission to perform this action' to [next] exactly
    when the user's role is not among the roles; otherwise it calls [next]
    without error; in both cases the request is left as it was. *)
Theorem restrictTo_spec (roles : list TUserRoles) (req : Request) (u : User) :
  req_user req = Some u ->
  (restrictTo roles req
     = inr (req, [Next (Some (AppError "You do not have permission to perform this action" 403))])
   <-> role u ∉ roles)
  /\ (role u ∈ roles -> restrictTo roles req = inr (req, [Next None]))
  /\ (exists effect, restrictTo roles req = inr (req, [effect])).
Proof.
  intros Hu. unfold restrictTo, noPermission. rewrite Hu.
  destruct (bool_decide (role u ∈ roles)) eqn:Hin; simpl.
  - apply bool_decide_eq_true in Hin. split; [|split].
    + split; [discriminate|]. intros Hn. by destruct Hn.
    + done.
    + by eexists.
  - apply bool_decide_eq_false in Hin. split; [|split].
    + done.
    + intros Hr. by destruct Hin.
    + by eexists.
Qed.

Lemma restrictTo_spec_witness :
  let req := set_user sampleUser emptyRequest in
  restrictTo [role_admin; role_lead_guide] req
  = inr (req, [Next (Some (AppError "You do not have permission to perform this action" 403))]).
Proof.
  intros req.
  apply (proj2 (proj1 (restrictTo_spec [role_admin; role_lead_guide] req sampleUser eq_refl))).
  apply (bool_decide_unpack _). vm_compute. exact I.
Defined.

(* ================================================================== *)
(** * The pre-save hooks of the user model *)
(* ================================================================== *)

Section UserSaveLemmas.
Context `{Library}.

Lemma isModified_cons path p d u n :
  isModified path (mkUserDoc u (p :: modifiedPaths d) n)
  = bool_decide (path = p) || isModified path d.
Proof.
  unfold isModified; simpl.
  destruct (decide (path = p)) as [->|Hne].
  - rewrite (bool_decide_eq_true_2 (p ∈ p :: _)); [|left].
    by rewrite bool_decide_eq_true_2.
  - rewrite (bool_decide_eq_false_2 (path = p)); [|done]. simpl.
    apply bool_decide_ext. rewrite elem_of_cons. tauto.
Qed.

Lemma pick_modified {B : Type} paths path (f : User -> B) mem stored :
  path ∈ paths -> pick paths path f mem stored = f mem.
Proof. intros Hin. unfold pick. by rewrite bool_decide_eq_true_2. Qed.

(** What the first hook leaves when the password was assigned. *)
Lemma preSave_hashPassword_modified (d : UserDoc) pw :
  isModified "password" d = true -> password (doc d) = Some pw ->
  preSave_hashPassword d
  = inr (assign_passwordConfirm None (assign_password (Some (bcrypt_hash pw 12)) d)).
Proof. intros Hm Hpw. unfold preSave_hashPassword. by rewrite Hm, Hpw. Qed.

(** The second hook touches neither [password] nor [passwordConfirm]
    and keeps the modified paths. *)
Lemma preSave_passwordChangedAt_frame now (d : UserDoc) :
  let d' := preSave_passwordChangedAt now d in
  password (doc d') = password (doc d)
  /\ passwordConfirm (doc d') = passwordConfirm (doc d)
  /\ user_id (doc d') = user_id (doc d)
  /\ email (doc d') = email (doc d)
  /\ isNew d' = isNew d
  /\ (forall p, p ∈ modifiedPaths d -> p ∈ modifiedPaths d')
  /\ isModified "email" d' = isModified "email" d.
Proof.
  unfold preSave_passwordChangedAt.
  destruct (negb (isModified "password" d) || isNew d); simpl; [done|].
  repeat split; try done.
  - intros p Hp. by right.
  - unfold assign_passwordChangedAt. by rewrite isModified_cons.
Qed.
End UserSaveLemmas.

(** C3.  The first pre-save hook of the user model and the save that runs
    it: when the password was not modified the hook returns the document
    as it is, so [password] and [passwordConfirm] are unchanged; when it
    was modified the hook replaces the password by its bcrypt hash of cost
    12 and sets [passwordConfirm] to undefined, every save that goes
    through writes a document with these two values, and a validated save
    of a loaded document does go through. *)
Theorem preSave_password_spec `{Library} (validateBeforeSave : bool) (now : Z)
    (d : UserDoc) (db : Db) :
  (isModified "password" d = false -> preSave_hashPassword d = inr d)
  /\ (forall pw,
        isModified "password" d = true -> password (doc d) = Some pw ->
        (exists d', preSave_hashPassword d = inr d'
                    /\ password (doc d') = Some (bcrypt_hash pw 12)
                    /\ passwordConfirm (doc d') = None)
        /\ (forall db' saved,
              User_save validateBeforeSave now d db = inr (db', saved) ->
              password (doc saved) = Some (bcrypt_hash pw 12)
              /\ passwordConfirm (doc saved) = None
              /\ exists u', u' ∈ users db'
                            /\ user_id u' = user_id (doc d)
                            /\ password u' = Some (bcrypt_hash pw 12)
                            /\ passwordConfirm u' = None)
        /\ ((validateBeforeSave = true -> User_validate d = []) ->
            isNew d = false -> isModified "email" d = false ->
            is_Some (findFirst (User_byId (user_id (doc d))) (users db)) ->
            exists db' saved, User_save validateBeforeSave now d db = inr (db', saved))).
Proof.
  split.
  { intros Hm. unfold preSave_hashPassword. by rewrite Hm. }
  intros pw Hm Hpw.
  pose proof (preSave_hashPassword_modified d pw Hm Hpw) as Hhook.
  set (d1 := assign_passwordConfirm None (assign_password (Some (bcrypt_hash pw 12)) d)) in *.
  destruct (preSave_passwordChangedAt_frame now d1)
    as (Hp & Hc & Hid & Hem & Hnew & Hpaths & Hmail).
  set (d2 := preSave_passwordChangedAt now d1) in *.
  assert (Hin1 : "password" ∈ modifiedPaths d2).
  { apply Hpaths. simpl. right. left. }
  assert (Hin2 : "passwordConfirm" ∈ modifiedPaths d2).
  { apply Hpaths. simpl. left. }
  split; [|split].
  - exists d1. done.
  - intros db' saved. unfold User_save.
    destruct (if validateBeforeSave then User_validate d else []); [|discriminate].
    rewrite Hhook. fold d2.
    destruct (isNew d2).
    + destruct (existsb _ _); [discriminate|].
      intros [= <- <-]; simpl. rewrite Hp, Hc. repeat split; try done.
      exists (doc d2). rewrite Hp, Hc, Hid. repeat split; try done.
      apply elem_of_app. right. left.
    + destruct (findFirst _ _) as [stored|] eqn:Hfind; [|discriminate].
      destruct (_ && _); [discriminate|].
      intros [= <- <-]; simpl. rewrite Hp, Hc. repeat split; try done.
      exists (writePaths (modifiedPaths d2) (doc d2) stored).
      split; [by apply updateFirst_elem|].
      apply findFirst_Some in Hfind as [_ Hq]. unfold User_byId in Hq.
      apply String.eqb_eq in Hq. simpl.
      rewrite !pick_modified by done. rewrite Hp, Hc. repeat split; try done.
      by rewrite Hq, Hid.
  - intros Hvalid Hnotnew Hnomail [stored Hstored]. unfold User_save.
    assert (Hv : (if validateBeforeSave then User_validate d else []) = []).
    { destruct validateBeforeSave; [by apply Hvalid|done]. }
    rewrite Hv, Hhook. fold d2.
    rewrite Hnew. simpl. rewrite Hnotnew.
    rewrite Hid. simpl. rewrite Hstored.
    rewrite Hmail. unfold d1, assign_passwordConfirm, assign_password.
    rewrite !isModified_cons, Hnomail. simpl.
    by eexists _, _.
Qed.

Lemma preSave_password_spec_witness :
  exists d',
    @preSave_hashPassword sampleLibrary sampleNewPassword = inr d'
    /\ password (doc d') = Some "$2a$12$correct horse"
    /\ passwordConfirm (doc d') = None.
Proof.
  exact (proj1 (proj2 (@preSave_password_spec sampleLibrary true 0 sampleNewPassword
                         (mkDb [sampleUser] [] []))
                      "correct horse" eq_refl eq_refl)).
Defined.

(* ================================================================== *)
(** * deleteMe and the reads of users *)
(* ================================================================== *)

Section Deactivation.
Context `{Library}.

Lemma applyUpdate_deactivate u : User_applyUpdate deactivate u = set_active (Some false) u.
Proof. by destruct u. Qed.

Lemma preFind_deactivated q u : active u = Some false -> User_preFind q u = false.
Proof.
  intros Ha. unfold User_preFind, activeNeFalse. rewrite Ha. by rewrite andb_false_r.
Qed.

Lemma findFirst_filter {A : Type} (q : A -> bool) (l : list A) :
  findFirst q l = head (List.filter q l).
Proof. induction l as [|x l IH]; simpl; [done|]. by destruct (q x). Qed.

(** For the find hook, a deactivated document is a deleted one. *)
Lemma filter_deactivated q q0 (l : list User) :
  List.filter (User_preFind q) (updateFirst q0 (set_active (Some false)) l)
  = List.filter (User_preFind q) (deleteFirst q0 l).
Proof.
  induction l as [|x l IH]; simpl; [done|].
  destruct (q0 x); simpl.
  - by rewrite preFind_deactivated.
  - by rewrite IH.
Qed.

Lemma updateFirst_ext {A : Type} (q : A -> bool) (f g : A -> A) l :
  (forall x, f x = g x) -> updateFirst q f l = updateFirst q g l.
Proof.
  intros Hfg. induction l as [|x l IH]; simpl; [done|].
  destruct (q x); by rewrite ?Hfg, ?IH.
Qed.

(** The database [deleteMe] leaves. *)
Lemma deleteMe_run req db u :
  req_user req = Some u ->
  deleteMe req db
  = finish (set_users (updateFirst (User_preFind (User_byId (user_id u)))
                                   (set_active (Some false)) (users db)) db)
           [Send 204 data_null].
Proof.
  intros Hu. unfold deleteMe, User_findByIdAndUpdate. rewrite Hu. simpl.
  destruct (findFirst _ _) eqn:Hfind; simpl.
  - by rewrite (updateFirst_ext _ _ _ _ applyUpdate_deactivate).
  - rewrite updateFirst_None by done. by destruct db.
Qed.

(** A deactivated document survives every find-family write. *)
Lemma deactivated_persists v db :
  v ∈ users db -> active v = Some false ->
  (forall id, v ∈ users (User_findByIdAndDelete id db).1)
  /\ (forall id upd rv db' r,
        User_findByIdAndUpdate id upd rv db = inr (db', r) -> v ∈ users db').
Proof.
  intros Hin Ha. split.
  - intros id. unfold User_findByIdAndDelete.
    destruct (findFirst _ _); simpl; [|done].
    apply deleteFirst_keeps; [done|]. by apply preFind_deactivated.
  - intros id upd rv db' r. unfold User_findByIdAndUpdate.
    destruct (if rv then _ else _); [|discriminate].
    destruct (findFirst _ _); [|by intros [= <- <-]].
    destruct (from_option _ _ _); [discriminate|].
    intros [= <- <-]. simpl.
    apply updateFirst_keeps; [done|]. by apply preFind_deactivated.
Qed.
End Deactivation.

(** C9.  [deleteMe] removes no document: it answers 204 with data null
    and leaves every user document in place, the current user's one with
    [active] set to false and its other paths unchanged.  As every
    find-family query on users carries the filter [active != false], all
    later reads (find, findOne, findById, the findOne of login) answer as
    if that document had been deleted, while the document itself stays in
    the collection, also through later findByIdAndUpdate and
    findByIdAndDelete calls. *)
Theorem deleteMe_deactivates `{Library} (JWT_SECRET : string) (req : Request) (db : Db)
    (u : User) :
  req_user req = Some u ->
  exists db',
    deleteMe req db = finish db' [Send 204 data_null]
    /\ tours db' = tours db /\ reviews db' = reviews db
    /\ Forall2 (fun v v' => v' = v \/ v' = set_active (Some false) v) (users db) (users db')
    /\ (forall q, User_find q db' = User_find q (withoutUser (user_id u) db))
    /\ (forall q sel, User_findOne q sel db' = User_findOne q sel (withoutUser (user_id u) db))
    /\ (forall id, User_findById id db' = User_findById id (withoutUser (user_id u) db))
    /\ (forall req',
          run_effects (login JWT_SECRET req' db')
          = run_effects (login JWT_SECRET req' (withoutUser (user_id u) db))
          /\ run_rejected (login JWT_SECRET req' db')
             = run_rejected (login JWT_SECRET req' (withoutUser (user_id u) db)))
    /\ (forall stored,
          findFirst (User_preFind (User_byId (user_id u))) (users db) = Some stored ->
          set_active (Some false) stored ∈ users db'
          /\ (forall id, set_active (Some false) stored ∈ users (User_findByIdAndDelete id db').1)
          /\ (forall id upd rv db'' r,
                User_findByIdAndUpdate id upd rv db' = inr (db'', r) ->
                set_active (Some false) stored ∈ users db'')).
Proof.
  intros Hu. eexists. split; [by apply deleteMe_run|].
  set (q0 := User_preFind (User_byId (user_id u))).
  assert (Hfind : forall q sel,
             User_findOne q sel
               (set_users (updateFirst q0 (set_active (Some false)) (users db)) db)
             = User_findOne q sel (withoutUser (user_id u) db)).
  { intros q sel. unfold User_findOne, withoutUser. simpl.
    by rewrite !findFirst_filter, filter_deactivated. }
  split; [done|]. split; [done|]. split.
  { apply updateFirst_Forall2; auto. }
  split.
  { intros q. unfold User_find, withoutUser. simpl. by rewrite filter_deactivated. }
  split; [exact Hfind|]. split; [intros id; apply Hfind|]. split.
  { intros req'. unfold login. destruct (_ || _); [done|].
    destruct (_ ≫= _); [|done]. rewrite Hfind.
    destruct (User_findOne _ _ _); [|done].
    destruct (body req' !! "password") as [[]|]; try done.
    destruct (password _); [|done]. by destruct (negb _). }
  intros stored Hstored.
  assert (Hin : set_active (Some false) stored
                ∈ updateFirst q0 (set_active (Some false)) (users db)).
  { by apply updateFirst_elem. }
  split; [exact Hin|]. split.
  - intros id. by apply (deactivated_persists _ (set_users _ db)).
  - intros id upd rv db'' r. by apply (deactivated_persists _ (set_users _ db)).
Qed.

Lemma deleteMe_deactivates_witness :
  let req := set_user sampleUser emptyRequest in
  let db := mkDb [sampleUser] [] [] in
  exists db',
    @deleteMe sampleLibrary req db = finish db' [Send 204 data_null]
    /\ users db' = [set_active (Some false) sampleUser]
    /\ User_findById "u1" db' = None.
Proof.
  intros req db.
  destruct (@deleteMe_deactivates sampleLibrary sampleSecret req db sampleUser eq_refl)
    as (db' & Hrun & _ & _ & _ & _ & _ & Hbyid & _).
  exists db'. split; [exact Hrun|]. split.
  - inversion Hrun. reflexivity.
  - rewrite Hbyid. reflexivity.
Defined.

(* ================================================================== *)
(** * calcAverageRatings and the hooks that start it *)
(* ================================================================== *)

Lemma remove_dups_const (t : string) (l : list string) :
  l <> [] -> Forall (fun x => x = t) l -> remove_dups l = [t].
Proof.
  induction l as [|x l IH]; [done|].
  intros _ Hall. apply Forall_cons in Hall as [-> Hl]. simpl.
  destruct (decide_rel elem_of t l) as [Hin|Hnot].
  - apply IH; [|done]. intros ->. inversion Hin.
  - destruct l as [|y l]; [done|].
    exfalso. apply Hnot. inversion Hl; subst. left.
Qed.

Lemma aggregate_match_all (t : string) (rs : list Review) :
  Forall (fun r => review_tour r = t) (aggregate_match t rs).
Proof.
  unfold aggregate_match. induction rs as [|r rs IH]; simpl; [constructor|].
  destruct (String.eqb (review_tour r) t) eqn:Heq; [|done].
  constructor; [by apply String.eqb_eq|done].
Qed.

Lemma filter_tour_all (t : string) (rs : list Review) :
  Forall (fun r => review_tour r = t) rs ->
  List.filter (fun r => String.eqb (review_tour r) t) rs = rs.
Proof.
  induction 1 as [|r rs Hr _ IH]; simpl; [done|].
  by rewrite Hr, String.eqb_refl, IH.
Qed.

(** After the [$match] stage the [$group] stage yields no group, or the
    one group of the matched tour. *)
Lemma aggregate_group_match (t : string) (rs : list Review) :
  aggregate_group (aggregate_match t rs)
  = match aggregate_match t rs with
    | [] => []
    | _ :: _ => [mkStats t (count (aggregate_match t rs)) (avg_rating (aggregate_match t rs))]
    end.
Proof.
  pose proof (aggregate_match_all t rs) as Hall.
  destruct (aggregate_match t rs) as [|r m] eqn:Hm; [done|].
  unfold aggregate_group.
  rewrite (remove_dups_const t).
  - cbn [map]. cbv zeta. by rewrite (filter_tour_all t (r :: m) Hall).
  - done.
  - apply Forall_fmap. exact Hall.
Qed.

Lemma calcAverageRatings_run (t : string) (db : Db) :
  calcAverageRatings t db
  = inr (set_tours (updateFirst (Tour_preFind (Tour_byId t))
                                (Tour_applyUpdate (recomputed t db)) (tours db)) db).
Proof.
  unfold calcAverageRatings, recomputed. rewrite aggregate_group_match.
  destruct (aggregate_match t (reviews db)); reflexivity.
Qed.

Lemma ratingsUpdate_keeps_query (t : string) (n a : Number) (x : Tour) :
  Tour_preFind (Tour_byId t) x = true ->
  Tour_preFind (Tour_byId t) (Tour_applyUpdate (ratingsUpdate n a) x) = true.
Proof. done. Qed.

Lemma recomputed_is_ratingsUpdate (t : string) (db : Db) :
  exists n a, recomputed t db = ratingsUpdate n a.
Proof. unfold recomputed. destruct (aggregate_match _ _); by eexists _, _. Qed.




(* ================================================================== *)
(** * protect *)
(* ================================================================== *)

(** The comparison of [changedPasswordAfter], in milliseconds. *)
Lemma changedPasswordAfter_spec (u : User) (iat : Z) :
  changedPasswordAfter u iat = true
  <-> exists t, passwordChangedAt u = Some t /\ iat * 1000 < t.
Proof.
  unfold changedPasswordAfter. destruct (passwordChangedAt u) as [t|].
  - rewrite bool_decide_eq_true.
    assert (Hlt : (num iat 1 < num t 1 / num 1000 1)%Qc <-> iat * 1000 < t).
    { unfold Qclt, num. simpl. rewrite !Qred_correct.
      unfold Qlt, Qmult, Qinv. simpl. lia. }
    rewrite Hlt. split.
    + intros Hi. by exists t.
    + by intros (t' & [= <-] & Hi).
  - split; [discriminate|]. by intros (t & [=] & _).
Qed.

(** C2 (as amended).  [protect] calls [next] without error and sets
    [req.user] to the user it found exactly when a token is read from the
    request (from an authorization header starting with Bearer, and only
    in the absence of such a header from the jwt cookie), [jwt.verify]
    accepts it under JWT_SECRET, a user with the decoded id is found, and
    that user's password was not changed after the token was issued
    (the change time, in ms, is not later than 1000 times the issued-at
    time, in s).  A missing token, a missing user and a stale token each give their own
    401 AppError; a token that [jwt.verify] rejects makes [protect] pass
    the verifier's own error to [next], whatever it is; in none of these
    cases is [req.user] set.  The global error handler answers a library
    error with status 500 in development; in production it replaces a
    JsonWebTokenError or TokenExpiredError by a 401 AppError, which an API
    request gets as status 401 when AppError marks its errors operational
    and as 500 otherwise. *)
Theorem protect_spec `{Library} (JWT_SECRET : string) (req : Request) (db : Db) :
  (forall u,
     protect JWT_SECRET req db = (set_user u req, finish db [Next None])
     <-> exists token decoded,
           getToken req = Some token /\ token <> ""
           /\ jwt_verify token JWT_SECRET = inr decoded
           /\ User_findById (decoded_id decoded) db = Some u
           /\ changedPasswordAfter u (decoded_iat decoded) = false)
  /\ (getToken req = None \/ getToken req = Some "" ->
      protect JWT_SECRET req db
      = (req, finish db [Next (Some (AppError "You are not logged in. Please log in to get access." 401))]))
  /\ (forall token e,
        getToken req = Some token -> token <> "" ->
        jwt_verify token JWT_SECRET = inl e ->
        protect JWT_SECRET req db = (req, reject db [] e)
        /\ catchAsync (protect JWT_SECRET req db).2 = (db, [Next (Some e)]))
  /\ (forall token decoded,
        getToken req = Some token -> token <> "" ->
        jwt_verify token JWT_SECRET = inr decoded ->
        User_findById (decoded_id decoded) db = None ->
        protect JWT_SECRET req db
        = (req, finish db [Next (Some (AppError "The user no longer exists." 401))]))
  /\ (forall token decoded u,
        getToken req = Some token -> token <> "" ->
        jwt_verify token JWT_SECRET = inr decoded ->
        User_findById (decoded_id decoded) db = Some u ->
        changedPasswordAfter u (decoded_iat decoded) = true ->
        protect JWT_SECRET req db
        = (req, finish db [Next (Some (AppError "User recently changed password. Please log in again." 401))]))
  /\ (forall a,
        headers_authorization req = Some a -> a <> "" -> startsWith a "Bearer" = true ->
        getToken req = nth_error (split " " a) 1)
  /\ (match headers_authorization req with
      | Some a => a = "" \/ startsWith a "Bearer" = false
      | None => True
      end ->
      getToken req = if truthy_str (cookies_jwt req) then cookies_jwt req else None)
  /\ (forall v iat,
        changedPasswordAfter v iat = true
        <-> exists t, passwordChangedAt v = Some t /\ iat * 1000 < t)
  /\ (forall operational name code messages originalUrl,
        globalErrorHandler operational development originalUrl (Thrown name code messages)
        = Some (if startsWith originalUrl "/api" then sent_json 500 else sent_render 500))
  /\ (forall operational name messages originalUrl,
        name = "JsonWebTokenError" \/ name = "TokenExpiredError" ->
        startsWith originalUrl "/api" = true ->
        globalErrorHandler operational production originalUrl (Thrown name None messages)
        = Some (sent_json (if operational then 401 else 500))).
Proof.
  assert (Hne : forall s : string, s <> "" -> String.eqb s "" = false).
  { intros s Hs. by apply String.eqb_neq. }
  split; [|split; [|split; [|split; [|split; [|split; [|split; [|split; [|split]]]]]]]];
    [| | | | | | |apply changedPasswordAfter_spec| |].
  8: { intros operational name code messages originalUrl.
       unfold globalErrorHandler, sendErrorDev. simpl.
       by destruct (startsWith originalUrl "/api"). }
  8: { intros operational name messages originalUrl [-> | ->] Hapi;
         unfold globalErrorHandler, sendErrorProd, translate; simpl; rewrite Hapi;
         by destruct operational. }
  - intros u. unfold protect. split.
    + destruct (getToken req) as [token|]; [|discriminate].
      destruct (String.eqb token "") eqn:Hempty; [discriminate|].
      destruct (jwt_verify token JWT_SECRET) as [e|decoded] eqn:Hverify; [discriminate|].
      destruct (User_findById _ db) as [cu|] eqn:Hfind; [|discriminate].
      destruct (changedPasswordAfter cu _) eqn:Hchanged; [discriminate|].
      intros [= ->].
      exists token, decoded. repeat split; try done.
      by apply String.eqb_neq.
    + intros (token & decoded & -> & Htoken & -> & -> & ->).
      by rewrite (Hne _ Htoken).
  - unfold protect, notLoggedIn. by intros [->| ->].
  - intros token e Hget Htoken Hverify. unfold protect.
    by rewrite Hget, (Hne _ Htoken), Hverify.
  - intros token decoded Hget Htoken Hverify Hfind. unfold protect, userGone.
    by rewrite Hget, (Hne _ Htoken), Hverify, Hfind.
  - intros token decoded u Hget Htoken Hverify Hfind Hchanged.
    unfold protect, passwordChanged.
    by rewrite Hget, (Hne _ Htoken), Hverify, Hfind, Hchanged.
  - intros a Ha Hnonempty Hbearer. unfold getToken.
    by rewrite Ha, (Hne _ Hnonempty), Hbearer.
  - unfold getToken. destruct (headers_authorization req) as [a|]; [|done].
    intros [-> | ->]; [done|]. by rewrite andb_false_r.
Qed.

Lemma protect_spec_witness :
  @protect sampleLibrary sampleSecret bearerRequest sampleDb
  = (set_user (User_select false sampleUser) bearerRequest, finish sampleDb [Next None]).
Proof.
  apply (proj2 (proj1 (@protect_spec sampleLibrary sampleSecret bearerRequest sampleDb)
                      (User_select false sampleUser))).
  exists "u1.s3cret", (mkDecoded "u1" 1700000000).
  repeat split; [discriminate].
Defined.

(** C2 as stated fails: a token that [jwt.verify] rejects does not give a
    401 error; [protect] passes the verifier's error, which has no status
    code, to [next], and in development the response has status 500. *)
Lemma protect_forged_token_not_401 :
  getToken forgedRequest = Some "forged"
  /\ @jwt_verify sampleLibrary "forged" sampleSecret
     = inl (Thrown "JsonWebTokenError" None ["invalid signature"])
  /\ catchAsync (@protect sampleLibrary sampleSecret forgedRequest sampleDb).2
     = (sampleDb, [Next (Some (Thrown "JsonWebTokenError" None ["invalid signature"]))])
  /\ err_statusCode (Thrown "JsonWebTokenError" None ["invalid signature"]) = None
  /\ globalErrorHandler true development "/api/v1/users/me"
       (Thrown "JsonWebTokenError" None ["invalid signature"])
     = Some (sent_json 500)
  /\ ~ exists message,
         catchAsync (@protect sampleLibrary sampleSecret forgedRequest sampleDb).2
         = (sampleDb, [Next (Some (AppError message 401))]).
Proof.
  repeat split. intros [message Heq]. discriminate Heq.
Qed.

(* ================================================================== *)
(** * The password reset token *)
(* ================================================================== *)

Lemma toHex_length (bs : list Byte.byte) : String.length (toHex bs) = (2 * length bs)%nat.
Proof.
  induction bs as [|b bs IH]; [done|].
  change (String.length (toHex (b :: bs))) with (S (S (String.length (toHex bs)))).
  rewrite IH. simpl. lia.
Qed.

Section ResetLemmas.
Context `{Library}.

(** A validated save of a loaded document whose password was assigned. *)
Lemma User_save_loaded v now (d : UserDoc) db pw stored :
  (if v : bool then User_validate d else []) = [] ->
  isModified "password" d = true -> password (doc d) = Some pw ->
  isNew d = false -> isModified "email" d = false ->
  findFirst (User_byId (user_id (doc d))) (users db) = Some stored ->
  let d2 := assign_passwordChangedAt (Some (now - 1000))
              (assign_passwordConfirm None
                 (assign_password (Some (bcrypt_hash pw 12)) d)) in
  User_save v now d db
  = inr (set_users (updateFirst (User_byId (user_id (doc d)))
                                (writePaths (modifiedPaths d2) (doc d2)) (users db)) db,
         mkUserDoc (doc d2) [] false).
Proof.
  intros Hvalid Hmod Hpw Hnew Hmail Hstored d2. unfold User_save.
  rewrite Hvalid, (preSave_hashPassword_modified d pw Hmod Hpw).
  unfold preSave_passwordChangedAt.
  assert (Hm1 : isModified "password"
                  (assign_passwordConfirm None
                     (assign_password (Some (bcrypt_hash pw 12)) d)) = true).
  { unfold assign_passwordConfirm, assign_password. by rewrite !isModified_cons. }
  rewrite Hm1. change (isNew (assign_passwordConfirm None _)) with (isNew d).
  rewrite Hnew. simpl negb. simpl orb. cbv iota. fold d2.
  change (isNew d2) with (isNew d). rewrite Hnew.
  change (user_id (doc d2)) with (user_id (doc d)). rewrite Hstored.
  assert (Hm2 : isModified "email" d2 = false).
  { unfold d2, assign_passwordChangedAt, assign_passwordConfirm, assign_password.
    by rewrite !isModified_cons, Hmail. }
  by rewrite Hm2.
Qed.

Lemma resetQuery_true hashed now u :
  User_preFind (resetQuery hashed now) u = true
  <-> active u <> Some false
      /\ passwordResetToken u = Some hashed
      /\ exists t, passwordResetExpires u = Some t /\ now < t.
Proof.
  unfold User_preFind, resetQuery, activeNeFalse.
  rewrite !andb_true_iff, bool_decide_eq_true. split.
  - intros [[Htok Hexp] Hact]. split; [|split; [done|]].
    + by destruct (active u) as [[]|].
    + destruct (passwordResetExpires u) as [t|]; [|discriminate].
      exists t. split; [done|]. by apply Z.ltb_lt.
  - intros (Hact & Htok & t & Hexp & Hlt). rewrite Hexp. repeat split; [done| |].
    + by apply Z.ltb_lt.
    + destruct (active u) as [[]|]; congruence.
Qed.

Lemma User_findOne_None q sel db :
  User_findOne q sel db = None <-> findFirst (User_preFind q) (users db) = None.
Proof. unfold User_findOne. by destruct (findFirst _ _). Qed.

Lemma User_findOne_Some q sel db u :
  User_findOne q sel db = Some u ->
  exists stored, findFirst (User_preFind q) (users db) = Some stored
                 /\ u = User_select sel stored.
Proof.
  unfold User_findOne. destruct (findFirst _ _) as [stored|]; [|discriminate].
  intros [= <-]. by exists stored.
Qed.

Lemma findFirst_is_Some {A : Type} (q : A -> bool) l x :
  x ∈ l -> q x = true -> is_Some (findFirst q l).
Proof.
  intros Hin Hq. destruct (findFirst q l) eqn:Hfind; [by eexists|].
  rewrite findFirst_None in Hfind. rewrite (Hfind x Hin) in Hq. discriminate.
Qed.
End ResetLemmas.

(** C4 (as amended).  [createPasswordResetToken] returns the hexadecimal
    form of the 32 random bytes (64 characters), stores its SHA-256 hex
    digest in [passwordResetToken] and sets [passwordResetExpires] to ten
    minutes after now.  [resetPassword] answers the 400 error 'Token is
    invalid or has expired' and changes nothing exactly when no user who
    is not deactivated has the digest of the presented token as
    [passwordResetToken] together with a [passwordResetExpires] strictly
    later than now.  When such a user is found and the new password passes
    validation, the password is stored as its bcrypt hash, both reset
    paths are cleared, and the user is logged in with a jwt cookie and a
    200 response. *)
Theorem resetToken_lifecycle `{Library} (JWT_SECRET : string) :
  (forall randomBytes now d,
     let result := createPasswordResetToken randomBytes now d in
     result.1 = toHex randomBytes
     /\ (length randomBytes = 32%nat -> String.length result.1 = 64%nat)
     /\ passwordResetToken (doc result.2) = Some (sha256_hex result.1)
     /\ passwordResetExpires (doc result.2) = Some (now + 600000)
     /\ password (doc result.2) = password (doc d)
     /\ user_id (doc result.2) = user_id (doc d))
  /\ (forall token req now db,
        resetPassword JWT_SECRET token req now db
        = finish db [Next (Some (AppError "Token is invalid or has expired" 400))]
        <-> ~ exists u,
              u ∈ users db /\ active u <> Some false
              /\ passwordResetToken u = Some (sha256_hex token)
              /\ exists t, passwordResetExpires u = Some t /\ now < t)
  /\ (forall token req now db u,
        User_findOne (resetQuery (sha256_hex token) now) false db = Some u ->
        User_validate (resetAssignments req u) = [] ->
        exists db' pw stored sent,
          body req !! "password" ≫= castString = Some pw
          /\ resetPassword JWT_SECRET token req now db
             = finish db' [Cookie "jwt" (jwt_sign (user_id u) JWT_SECRET);
                           Send 200 (token_user (jwt_sign (user_id u) JWT_SECRET) sent)]
          /\ user_id sent = user_id u /\ password sent = None
          /\ stored ∈ users db' /\ user_id stored = user_id u
          /\ password stored = Some (bcrypt_hash pw 12)
          /\ passwordConfirm stored = None
          /\ passwordResetToken stored = None
          /\ passwordResetExpires stored = None
          /\ passwordChangedAt stored = Some (now - 1000)
          /\ tours db' = tours db /\ reviews db' = reviews db).
Proof.
  split; [|split].
  - intros randomBytes now d. simpl. repeat split.
    intros Hlen. rewrite toHex_length, Hlen. reflexivity.
  - intros token req now db. unfold resetPassword, tokenInvalid.
    destruct (User_findOne _ false db) as [u|] eqn:Hfind.
    + split.
      * destruct (User_save _ _ _ _) as [e|[db' saved]]; discriminate.
      * intros Hnone. exfalso. apply Hnone.
        apply User_findOne_Some in Hfind as (stored & Hstored & _).
        apply findFirst_Some in Hstored as [Hin Hq].
        apply resetQuery_true in Hq. by exists stored.
    + split; [|done]. intros _ (u & Hin & Hq).
      apply User_findOne_None in Hfind. rewrite findFirst_None in Hfind.
      apply (proj2 (resetQuery_true _ _ _)) in Hq. rewrite (Hfind u Hin) in Hq.
      discriminate.
  - intros token req now db u Hfind Hvalid.
    destruct (User_findOne_Some _ _ _ _ Hfind) as (stored0 & Hstored0 & Hu).
    apply findFirst_Some in Hstored0 as [Hin Hq].
    assert (Hid : user_id u = user_id stored0) by (by rewrite Hu).
    destruct (findFirst_is_Some (User_byId (user_id u)) (users db) stored0 Hin)
      as [stored1 Hstored1].
    { unfold User_byId. rewrite Hid. apply String.eqb_refl. }
    assert (Hpw : exists pw, body req !! "password" ≫= castString = Some pw).
    { unfold User_validate in Hvalid.
      apply app_eq_nil in Hvalid as [_ Hvalid].
      apply app_eq_nil in Hvalid as [_ Hvalid].
      apply app_eq_nil in Hvalid as [Hvalid _].
      simpl in Hvalid.
      destruct (body req !! "password" ≫= castString) as [pw|]; [by exists pw|].
      discriminate. }
    destruct Hpw as [pw Hpw].
    pose proof (User_save_loaded true now (resetAssignments req u) db pw stored1
                  Hvalid eq_refl) as Hsave.
    simpl in Hsave. rewrite Hpw in Hsave.
    specialize (Hsave eq_refl eq_refl eq_refl Hstored1).
    unfold resetPassword. rewrite Hfind, Hsave. clear Hsave.
    apply findFirst_Some in Hstored1 as Hby. destruct Hby as [_ Hby].
    unfold User_byId in Hby. apply String.eqb_eq in Hby.
    eexists _, pw, _, _. split; [done|]. split; [reflexivity|].
    split; [reflexivity|]. split; [reflexivity|].
    split; [by apply updateFirst_elem|].
    repeat split. exact Hby.
Qed.

Lemma resetToken_lifecycle_witness :
  exists db' stored,
    run_db (@resetPassword sampleLibrary sampleSecret "abc" resetRequest 1000
              (mkDb [resettingUser] [] [])) = db'
    /\ stored ∈ users db'
    /\ password stored = Some "$2a$12$correct horse"
    /\ passwordResetToken stored = None.
Proof.
  destruct (proj2 (proj2 (@resetToken_lifecycle sampleLibrary sampleSecret))
              "abc" resetRequest 1000 (mkDb [resettingUser] [] [])
              (User_select false resettingUser) eq_refl eq_refl)
    as (db' & pw & stored & sent & Hpw & Hrun & _ & _ & Hin & _ & Hpassword & _ & Htoken & _).
  exists db', stored. rewrite Hrun. split; [reflexivity|]. split; [exact Hin|].
  split; [|exact Htoken].
  rewrite Hpassword. injection Hpw as <-. reflexivity.
Defined.

(** C4 as stated fails: a deactivated user holds the digest of the
    presented token and an expiry later than now, and the token is
    refused. *)
Lemma resetPassword_refuses_deactivated :
  (exists u,
     u ∈ users (mkDb [deactivatedUser] [] [])
     /\ passwordResetToken u = Some (@sha256_hex sampleLibrary "abc")
     /\ exists t, passwordResetExpires u = Some t /\ 1000 < t)
  /\ @resetPassword sampleLibrary sampleSecret "abc" resetRequest 1000
       (mkDb [deactivatedUser] [] [])
     = finish (mkDb [deactivatedUser] [] [])
              [Next (Some (AppError "Token is invalid or has expired" 400))].
Proof.
  split; [|reflexivity].
  exists deactivatedUser. split; [left|]. split; [reflexivity|].
  exists 2000. split; [reflexivity|lia].
Qed.

(* ================================================================== *)
(** * getTour, updateTour, deleteTour *)
(* ================================================================== *)





(* ================================================================== *)
(** * getToursWithin *)
(* ================================================================== *)



(* ================================================================== *)
(** * updateMe *)
(* ================================================================== *)

Lemma filterObj_lookup (obj : JsObject) (allowedFields : list string) (k : string) :
  filterObj obj allowedFields !! k
  = if bool_decide (k ∈ allowedFields) then obj !! k else None.
Proof.
  unfold filterObj.
  apply (map_fold_weak_ind
           (fun (r : JsObject) (m : JsObject) =>
              r !! k = if bool_decide (k ∈ allowedFields) then m !! k else None)).
  - rewrite !lookup_empty. by destruct (bool_decide _).
  - intros i x m r Hfresh IH.
    destruct (decide (k = i)) as [->|Hne].
    + destruct (bool_decide (i ∈ allowedFields)) eqn:Hin.
      * by rewrite !lookup_insert_eq.
      * exact IH.
    + rewrite (lookup_insert_ne m) by done.
      destruct (bool_decide (i ∈ allowedFields)); [|exact IH].
      by rewrite lookup_insert_ne.
Qed.

Section UpdateMeLemmas.
Context `{Library}.

(** An object without the other paths of the schema casts to an update
    of [name], [email] and [photo] only. *)
Lemma castUserUpdate_profile (obj : JsObject) (upd : UserUpdate) :
  obj !! "role" = None -> obj !! "password" = None ->
  obj !! "passwordConfirm" = None -> obj !! "passwordChangedAt" = None ->
  obj !! "passwordResetToken" = None -> obj !! "passwordResetExpires" = None ->
  obj !! "active" = None ->
  castUserUpdate obj = inr upd ->
  upd_role upd = None /\ upd_password upd = None /\ upd_passwordConfirm upd = None
  /\ upd_passwordChangedAt upd = None /\ upd_passwordResetToken upd = None
  /\ upd_passwordResetExpires upd = None /\ upd_active upd = None
  /\ (obj !! "photo" = None -> upd_photo upd = None).
Proof.
  intros H1 H2 H3 H4 H5 H6 H7. unfold castUserUpdate.
  rewrite H1, H2, H3, H4, H5, H6, H7.
  destruct (castPath castString (obj !! "name")) as [n|]; simpl; [|discriminate].
  destruct (castPath castString (obj !! "email")) as [e|]; simpl; [|discriminate].
  destruct (obj !! "photo") as [p|]; simpl.
  - destruct (castString p); simpl; [|discriminate]. intros [= <-]. by repeat split.
  - intros [= <-]. by repeat split.
Qed.

(** What a findByIdAndUpdate of users leaves. *)
Lemma User_findByIdAndUpdate_frame id upd rv db db' r :
  User_findByIdAndUpdate id upd rv db = inr (db', r) ->
  tours db' = tours db /\ reviews db' = reviews db
  /\ Forall2 (fun v v' => v' = v
                          \/ (User_preFind (User_byId id) v = true
                              /\ v' = User_applyUpdate upd v))
             (users db) (users db').
Proof.
  unfold User_findByIdAndUpdate.
  destruct (if rv then _ else _); [|discriminate].
  destruct (findFirst _ _).
  - destruct (from_option _ _ _); [discriminate|]. intros [= <- <-]. simpl.
    repeat split. apply updateFirst_Forall2; auto.
  - intros [= <- <-]. repeat split. apply Forall2_same_length_lookup_2; [done|].
    intros i x y Hx Hy. left. congruence.
Qed.
End UpdateMeLemmas.

(** C8 (as amended).  For every request body, [updateMe] changes at most
    the name, the email and, only when a file was uploaded, the photo of
    the current user's document: [filterObj] keeps the name and email
    properties of the body and drops every other one, and all other
    paths of that document, all other user documents, the tours and the
    reviews are left as they were.  If [password] or [passwordConfirm] of
    the body is truthy, it passes the 400 error to [next] and updates
    nothing. *)
Theorem updateMe_frame `{Library} (req : Request) (db : Db) (u : User) :
  req_user req = Some u ->
  (truthy_prop (body req !! "password") || truthy_prop (body req !! "passwordConfirm") = true ->
   updateMe req db
   = finish db [Next (Some (AppError
                              "This route is not for password updates. Please use /updatemypassword route."
                              400))])
  /\ (forall k,
        filterObj (body req) ["name"; "email"] !! k
        = if bool_decide (k ∈ ["name"; "email"]) then body req !! k else None)
  /\ (let db' := run_db (updateMe req db) in
      tours db' = tours db /\ reviews db' = reviews db
      /\ Forall2 (fun v v' =>
                    v' = v
                    \/ (User_preFind (User_byId (user_id u)) v = true
                        /\ sameButProfile (bool_decide (file_filename req = None)) v v'))
                 (users db) (users db'))
  /\ (run_effects (updateMe req db) = [Next (Some notForPasswords)]
      \/ (run_effects (updateMe req db) = [] /\ is_Some (run_rejected (updateMe req db)))
      \/ exists r, run_effects (updateMe req db) = [Send 200 (data_user r)]).
Proof.
  intros Hu.
  assert (Hsame : Forall2 (fun v v' =>
                    v' = v
                    \/ (User_preFind (User_byId (user_id u)) v = true
                        /\ sameButProfile (bool_decide (file_filename req = None)) v v'))
                 (users db) (users db)).
  { apply Forall2_same_length_lookup_2; [done|]. intros i x y Hx Hy. left. congruence. }
  split; [|split; [|split]].
  - intros Hguard. unfold updateMe. by rewrite Hu, Hguard.
  - intros k. apply filterObj_lookup.
  - unfold updateMe. rewrite Hu.
    destruct (_ || _); [done|].
    set (fb := match file_filename req with
               | Some filename => <["photo" := JStr filename]> (filterObj (body req) ["name"; "email"])
               | None => filterObj (body req) ["name"; "email"]
               end).
    assert (Hother : forall k, k <> "photo" -> k ∉ ["name"; "email"] -> fb !! k = None).
    { intros k Hk Hnot. unfold fb. destruct (file_filename req).
      - rewrite lookup_insert_ne by done. rewrite filterObj_lookup.
        by rewrite bool_decide_eq_false_2.
      - rewrite filterObj_lookup. by rewrite bool_decide_eq_false_2. }
    assert (Hphoto : file_filename req = None -> fb !! "photo" = None).
    { intros Hfile. unfold fb. rewrite Hfile. by rewrite filterObj_lookup. }
    destruct (castUserUpdate fb) as [e|upd] eqn:Hcast; [done|].
    destruct (User_findByIdAndUpdate _ upd true db) as [e|[db' r]] eqn:Hupdate; [done|].
    simpl. apply User_findByIdAndUpdate_frame in Hupdate as (Ht & Hr & Hall).
    split; [done|]. split; [done|].
    apply castUserUpdate_profile in Hcast
      as (H1 & H2 & H3 & H4 & H5 & H6 & H7 & H8);
      try (apply Hother; [discriminate|]; apply (bool_decide_unpack _); vm_compute; exact I).
    eapply Forall2_impl; [exact Hall|].
    intros v v' [->|[Hq ->]]; [by left|]. right. split; [done|].
    unfold sameButProfile, User_applyUpdate. simpl.
    rewrite H1, H2, H3, H4, H5, H6, H7. simpl. repeat split.
    intros Hkeep. apply bool_decide_eq_true in Hkeep.
    by rewrite (H8 (Hphoto Hkeep)).
  - unfold updateMe. rewrite Hu.
    destruct (_ || _); [by left|].
    destruct (castUserUpdate _); [right; left; by split; [|eexists]|].
    destruct (User_findByIdAndUpdate _ _ _ _) as [e|[db' r]];
      [right; left; by split; [|eexists]|].
    right; right. by eexists.
Qed.

Lemma updateMe_frame_witness :
  let db' := run_db (@updateMe sampleLibrary renameRequest sampleDb) in
  Forall2 (fun v v' =>
             v' = v
             \/ (User_preFind (User_byId "u1") v = true /\ sameButProfile true v v'))
          (users sampleDb) (users db')
  /\ user_name <$> users db' = ["Eve"]
  /\ role <$> users db' = [role_user].
Proof.
  intros db'. split.
  - exact (proj2 (proj2 (proj1 (proj2 (proj2
             (@updateMe_frame sampleLibrary renameRequest sampleDb sampleUser eq_refl)))))).
  - split; vm_compute; reflexivity.
Defined.

(** C8 as stated fails: the body contains a password value, the empty
    string; [updateMe] does not answer 400 and updates the name. *)
Lemma updateMe_empty_password_passes :
  body emptyPasswordRequest !! "password" = Some (JStr "")
  /\ exists db' r,
       @updateMe sampleLibrary emptyPasswordRequest sampleDb
       = finish db' [Send 200 (data_user (Some r))]
       /\ user_name r = "Eve"
       /\ user_name <$> users sampleDb = ["Ana"]
       /\ user_name <$> users db' = ["Eve"].
Proof.
  split; [reflexivity|].
  eexists _, _. split; [vm_compute; reflexivity|]. by repeat split.
Qed.

(* ================================================================== *)
(** * The invariants the schemas enforce *)
(* ================================================================== *)

Section KeyedCollections.
Context {A K : Type} (key : A -> K).
Implicit Types (q : A -> bool) (f : A -> A) (l : list A).

Lemma key_deleteFirst q l k : k ∈ key <$> deleteFirst q l -> k ∈ key <$> l.
Proof.
  rewrite !list_elem_of_fmap. intros (x & -> & Hx). exists x.
  split; [done|]. by apply (deleteFirst_subseteq q).
Qed.

Lemma key_updateFirst q f l k :
  k ∈ key <$> updateFirst q f l ->
  k ∈ key <$> l \/ exists x, findFirst q l = Some x /\ k = key (f x).
Proof.
  induction l as [|y l IH]; simpl; [by left|].
  destruct (q y); simpl.
  - rewrite !elem_of_cons. intros [->|Hk]; [right; by exists y|left; by right].
  - rewrite !elem_of_cons. intros [->|Hk]; [left; by left|].
    destruct (IH Hk) as [Hl|Hx]; [left; by right|by right].
Qed.

Lemma NoDup_deleteFirst q l : NoDup (key <$> l) -> NoDup (key <$> deleteFirst q l).
Proof.
  induction l as [|y l IH]; simpl; [done|].
  rewrite NoDup_cons. intros [Hy Hl]. destruct (q y); [done|]. simpl.
  apply NoDup_cons. split; [|by apply IH].
  intros Hin. apply Hy. by apply (key_deleteFirst q).
Qed.

Lemma NoDup_updateFirst q f l x :
  NoDup (key <$> l) -> findFirst q l = Some x ->
  key (f x) ∉ key <$> deleteFirst q l ->
  NoDup (key <$> updateFirst q f l).
Proof.
  induction l as [|y l IH]; simpl; [done|].
  rewrite NoDup_cons. intros [Hy Hl]. destruct (q y); simpl.
  - intros [= ->] Hfresh. apply NoDup_cons. by split.
  - intros Hx Hfresh. apply not_elem_of_cons in Hfresh as [Hne Hfresh].
    apply NoDup_cons. split; [|by apply IH].
    intros Hin. apply key_updateFirst in Hin as [Hin|(x' & Hx' & Heq)]; [done|].
    rewrite Hx in Hx'. injection Hx' as <-. by apply Hne.
Qed.
End KeyedCollections.

Lemma samePair_fresh (r : Review) (l : list Review) :
  existsb (samePair r) l = false <-> pairOf r ∉ pairOf <$> l.
Proof.
  induction l as [|y l IH]; simpl.
  - split; [|done]. intros _ Hin. inversion Hin.
  - rewrite orb_false_iff, IH, not_elem_of_cons. unfold samePair, pairOf.
    split; intros [Hne Hl]; (split; [|done]).
    + intros [= Ht Hu]. by rewrite Ht, Hu, !String.eqb_refl in Hne.
    + destruct (String.eqb (review_tour r) (review_tour y)) eqn:Ht; [|done].
      destruct (String.eqb (review_user r) (review_user y)) eqn:Hu; [|done].
      apply String.eqb_eq in Ht, Hu. destruct Hne. by rewrite Ht, Hu.
Qed.

Lemma calcAverageRatings_reviews (t : string) (db db' : Db) :
  calcAverageRatings t db = inr db' -> reviews db' = reviews db.
Proof. rewrite calcAverageRatings_run. by intros [= <-]. Qed.

(** [Math.round] of an integer is that integer. *)
Lemma Math_round_integer (z : Z) : Math_round (num z 1) = z.
Proof.
  unfold Math_round, num, Qcplus. simpl this.
  rewrite !Qred_correct. unfold Qplus, Qfloor. simpl.
  change (Z.pos (1 * 2)) with 2. symmetry. apply Z.div_unique with 1; lia.
Qed.

Lemma ratingsAverage_set_idempotent (v : Number) :
  ratingsAverage_set (ratingsAverage_set v) = ratingsAverage_set v.
Proof.
  unfold ratingsAverage_set at 1.
  assert (Hmul : (ratingsAverage_set v * num 10 1)%Qc = num (Math_round (v * num 10 1)%Qc) 1).
  { unfold ratingsAverage_set. rewrite Qcmult_comm. apply Qcmult_div_r. done. }
  by rewrite Hmul, Math_round_integer.
Qed.

Lemma validate_ratingsAverage_ok (v : Number) :
  validate_ratingsAverage v = [] -> (num 1 1 <= v)%Qc /\ (v <= num 5 1)%Qc.
Proof.
  unfold validate_ratingsAverage.
  destruct (bool_decide (v < num 1 1)%Qc) eqn:Hlow; [discriminate|].
  destruct (bool_decide (num 5 1 < v)%Qc) eqn:Hhigh; [discriminate|].
  intros _. apply bool_decide_eq_false in Hlow, Hhigh.
  split; by apply Qcnot_lt_le.
Qed.

(** C7 (as amended).  The schemas enforce data invariants of their own.
    A tour is created only if its priceDiscount, when present, is lower
    than its price, and with a ratingsAverage between 1 and 5.  Every
    ratingsAverage written through the schema is the setter's value of
    what was given: a number of tenths, which the setter leaves as it is.
    The unique index on (tour, user) is kept by every write of reviews: a
    collection without two reviews of the same tour and user remains one
    after a creation, a findByIdAndUpdate and a findByIdAndDelete. *)
Theorem schema_invariants (db : Db) :
  (forall t db' t',
     Tour_create t db = inr (db', t') ->
     (forall d, priceDiscount t' = Some d -> (d < price t')%Qc)
     /\ (num 1 1 <= ratingsAverage t')%Qc /\ (ratingsAverage t' <= num 5 1)%Qc
     /\ ratingsAverage t' = ratingsAverage_set (ratingsAverage t)
     /\ t' ∈ tours db')
  /\ (forall v,
        ratingsAverage_set (ratingsAverage_set v) = ratingsAverage_set v
        /\ exists z, ratingsAverage_set v = (num z 1 / num 10 1)%Qc)
  /\ (forall upd t v,
        upd_ratingsAverage upd = Some v ->
        ratingsAverage (Tour_applyUpdate upd t) = ratingsAverage_set v)
  /\ (uniquePairs db ->
      (forall r db' r', Review_create r db = inr (db', r') -> uniquePairs db')
      /\ (forall id upd rv db' r',
            Review_findByIdAndUpdate id upd rv db = inr (db', r') -> uniquePairs db')
      /\ (forall id db' r',
            Review_findByIdAndDelete id db = inr (db', r') -> uniquePairs db')).
Proof.
  split; [|split; [|split]].
  - intros t db' t'. unfold Tour_create.
    destruct (Tour_validate _) eqn:Hvalid; [|discriminate].
    intros [= <- <-]. unfold Tour_validate in Hvalid.
    apply app_eq_nil in Hvalid as [Hdiscount Haverage]. simpl in *.
    apply validate_ratingsAverage_ok in Haverage as [Hlow Hhigh].
    repeat split; try done.
    + intros d Hd. rewrite Hd in Hdiscount. simpl in Hdiscount.
      destruct (bool_decide (d < price t)%Qc) eqn:Hlt; [|discriminate].
      by apply bool_decide_eq_true in Hlt.
    + apply elem_of_app. right. left.
  - intros v. split; [apply ratingsAverage_set_idempotent|]. by eexists.
  - intros upd t v Hv. unfold Tour_applyUpdate. simpl. by rewrite Hv.
  - unfold uniquePairs. intros Hunique. split; [|split].
    + intros r db' r'. unfold Review_create.
      destruct (_ ++ _); [|discriminate].
      destruct (existsb _ _) eqn:Hdup; [discriminate|].
      apply samePair_fresh in Hdup.
      destruct (calcAverageRatings _ _) as [e|db2] eqn:Hcalc; intros [= <- <-].
      * simpl. rewrite fmap_app. apply NoDup_app. repeat split; try done.
        -- intros k Hk Hr. apply list_elem_of_singleton in Hr as ->. done.
        -- apply NoDup_singleton.
      * rewrite (calcAverageRatings_reviews _ _ _ Hcalc). simpl.
        rewrite fmap_app. apply NoDup_app. repeat split; try done.
        -- intros k Hk Hr. apply list_elem_of_singleton in Hr as ->. done.
        -- apply NoDup_singleton.
    + intros id upd rv db' r'. unfold Review_findByIdAndUpdate.
      destruct (if rv then _ else _); [|discriminate].
      destruct (findFirst _ _) as [rev|] eqn:Hrev; simpl.
      * destruct (existsb _ _) eqn:Hdup; [discriminate|].
        apply samePair_fresh in Hdup.
        destruct (calcAverageRatings _ _) as [e|db2] eqn:Hcalc; [discriminate|].
        intros [= <- <-]. rewrite (calcAverageRatings_reviews _ _ _ Hcalc). simpl.
        by apply (NoDup_updateFirst pairOf _ _ _ rev).
      * discriminate.
    + intros id db' r'. unfold Review_findByIdAndDelete, postFindOneAnd.
      destruct (findFirst _ _) as [rev|]; [|discriminate].
      destruct (calcAverageRatings _ _) as [e|db2] eqn:Hcalc; [discriminate|].
      intros [= <- <-]. rewrite (calcAverageRatings_reviews _ _ _ Hcalc). simpl.
      by apply NoDup_deleteFirst.
Qed.

Lemma schema_invariants_witness :
  uniquePairs sampleDb
  /\ forall db' r', Review_create fourthReview sampleDb = inr (db', r') -> uniquePairs db'.
Proof.
  assert (Hunique : uniquePairs sampleDb).
  { apply (bool_decide_unpack _). vm_compute. exact I. }
  split; [exact Hunique|].
  destruct (schema_invariants sampleDb) as (_ & _ & _ & Hreviews).
  destruct (Hreviews Hunique) as (Hcreate & _ & _).
  exact (Hcreate fourthReview).
Defined.

(** C7 as stated fails: there are a cross-field constraint, a
    normalisation of values and a uniqueness constraint.  A tour whose
    discount is not below its price is refused, a ratingsAverage of 14/3
    is stored as 4.7, and a second review of the same user on the same
    tour is refused. *)
Lemma schemas_enforce_invariants :
  Tour_create overpricedDiscount sampleDb
  = inl (ValidationError ["Discount price ({VALUE}) should be lower than regular price"])
  /\ ratingsAverage_set (num 14 3) = num 47 10
  /\ ratingsAverage_set (num 14 3) <> num 14 3
  /\ Review_create secondReview sampleDb = inl DuplicateKeyError.
Proof.
  split; [reflexivity|]. split; [apply Qc_is_canon; reflexivity|].
  split; [|reflexivity].
  intros Heq. apply (f_equal this) in Heq. vm_compute in Heq. discriminate.
Qed.

(* ================================================================== *)
(** * Further properties: collections with unique ids *)
(* ================================================================== *)

Section UniqueKeys.
Context {A K : Type} (key : A -> K).
Implicit Types (q : A -> bool) (f : A -> A) (l : list A).

Lemma elem_updateFirst q f l y :
  y ∈ updateFirst q f l -> y ∈ l \/ exists x, findFirst q l = Some x /\ y = f x.
Proof.
  induction l as [|z l IH]; simpl; [by left|].
  destruct (q z); rewrite !elem_of_cons.
  - intros [->|Hy]; [right; by exists z|left; by right].
  - intros [->|Hy]; [left; by left|].
    destruct (IH Hy) as [Hl|Hx]; [left; by right|by right].
Qed.

Lemma NoDup_key_eq l x y :
  NoDup (key <$> l) -> x ∈ l -> y ∈ l -> key x = key y -> x = y.
Proof.
  induction l as [|z l IH]; simpl; [by intros _ Hx; inversion Hx|].
  rewrite NoDup_cons. intros [Hz Hl] Hx Hy Hkey.
  apply elem_of_cons in Hx as [->|Hx]; apply elem_of_cons in Hy as [->|Hy]; auto.
  - destruct Hz. rewrite Hkey. apply list_elem_of_fmap. by exists y.
  - destruct Hz. rewrite <- Hkey. apply list_elem_of_fmap. by exists x.
Qed.

(** With unique keys, a query narrower than the selection of a key finds
    the document that the selection of the key finds. *)
Lemma findFirst_narrower q q' l x :
  NoDup (key <$> l) ->
  (forall y, q' y = true -> q y = true) ->
  (forall y z, q y = true -> q z = true -> key y = key z) ->
  findFirst q' l = Some x -> findFirst q l = Some x.
Proof.
  intros Hnodup Hsub Hkey Hx.
  destruct (findFirst_Some _ _ _ Hx) as [Hin Hq'].
  destruct (findFirst q l) as [y|] eqn:Hy.
  - destruct (findFirst_Some _ _ _ Hy) as [Hiny Hqy].
    f_equal. apply (NoDup_key_eq l); auto.
  - rewrite findFirst_None in Hy. specialize (Hsub x Hq').
    rewrite (Hy x Hin) in Hsub. discriminate.
Qed.

(** With unique keys, nothing is left of a key once its document is
    deleted. *)
Lemma deleteFirst_key_gone q l x y :
  NoDup (key <$> l) -> findFirst q l = Some x -> y ∈ deleteFirst q l -> key y <> key x.
Proof.
  induction l as [|z l IH]; simpl; [discriminate|].
  rewrite NoDup_cons. intros [Hz Hl]. destruct (q z).
  - intros [= ->] Hy Hkey. apply Hz. rewrite <- Hkey. apply list_elem_of_fmap. by exists y.
  - intros Hx Hy. apply elem_of_cons in Hy as [->|Hy]; [|by apply IH].
    intros Hkey. apply Hz. rewrite Hkey. apply list_elem_of_fmap. exists x.
    split; [done|]. by apply (findFirst_Some q).
Qed.

(** The first match of a narrower query in an updated collection is the
    updated document, when the update keeps it in the narrower query. *)
Lemma findFirst_updateFirst_narrower q q' f l x :
  (forall y, y ∈ l -> q' y = true -> q y = true) ->
  findFirst q l = Some x -> q' (f x) = true ->
  findFirst q' (updateFirst q f l) = Some (f x).
Proof.
  induction l as [|z l IH]; simpl; [discriminate|].
  intros Hsub. destruct (q z) eqn:Hz.
  - intros [= ->] Hfx. simpl. by rewrite Hfx.
  - intros Hx Hfx. simpl. destruct (q' z) eqn:Hz'.
    + apply Hsub in Hz'; [congruence|left].
    + apply IH; [|done|done]. intros y Hy. apply Hsub. by right.
Qed.

(** An updated collection holds the updated document and what a
    deletion would leave. *)
Lemma elem_updateFirst_deleted q f l y :
  y ∈ updateFirst q f l ->
  (exists x, findFirst q l = Some x /\ y = f x) \/ y ∈ deleteFirst q l.
Proof.
  induction l as [|z l IH]; simpl; [by right|].
  destruct (q z); rewrite ?elem_of_cons.
  - intros [->|Hy]; [left; by exists z|by right].
  - intros [->|Hy]; [right; by left|].
    destruct (IH Hy) as [Hx|Hl]; [by left|right; by right].
Qed.

Lemma updateFirst_first q f l x :
  findFirst q l = Some x -> updateFirst q f l = updateFirst q (fun _ => f x) l.
Proof.
  induction l as [|z l IH]; simpl; [done|].
  destruct (q z); [by intros [= ->]|]. intros Hx. by rewrite IH.
Qed.
End UniqueKeys.

Lemma User_preFind_byId_narrower id y :
  User_preFind (User_byId id) y = true -> User_byId id y = true.
Proof. unfold User_preFind. by intros [Hq _]%andb_true_iff. Qed.

Lemma User_byId_same_key id y z :
  User_byId id y = true -> User_byId id z = true -> user_id y = user_id z.
Proof. unfold User_byId. intros Hy%String.eqb_eq Hz%String.eqb_eq. congruence. Qed.

(** With unique ids, the document a find-family query by id finds is the
    document [save()] writes to. *)
Lemma User_byId_first id l x :
  NoDup (user_id <$> l) ->
  findFirst (User_preFind (User_byId id)) l = Some x ->
  findFirst (User_byId id) l = Some x.
Proof.
  intros Hnodup. apply (findFirst_narrower user_id); [done| |].
  - apply User_preFind_byId_narrower.
  - apply User_byId_same_key.
Qed.

(* ================================================================== *)
(** * Further properties: passwords, tokens and sessions *)
(* ================================================================== *)

Lemma activeNeFalse_true u : activeNeFalse u = true <-> active u <> Some false.
Proof. unfold activeNeFalse. destruct (active u) as [[]|]; split; congruence. Qed.

Lemma User_byId_found (l : list User) x :
  NoDup (user_id <$> l) -> x ∈ l -> findFirst (User_byId (user_id x)) l = Some x.
Proof.
  intros Hnodup Hin.
  destruct (findFirst_is_Some (User_byId (user_id x)) l x Hin) as [y Hy].
  { unfold User_byId. apply String.eqb_refl. }
  rewrite Hy. f_equal. destruct (findFirst_Some _ _ _ Hy) as [Hiny Hq].
  apply (NoDup_key_eq user_id l); auto.
  unfold User_byId in Hq. by apply String.eqb_eq in Hq.
Qed.

Section SessionLemmas.
Context `{Library}.

(** When [resetPassword] refuses a token. *)
Lemma resetPassword_refused_iff JWT_SECRET token req now db :
  resetPassword JWT_SECRET token req now db = finish db [Next (Some tokenInvalid)]
  <-> ~ exists v, v ∈ users db /\ active v <> Some false
                  /\ passwordResetToken v = Some (sha256_hex token)
                  /\ exists t, passwordResetExpires v = Some t /\ now < t.
Proof.
  unfold resetPassword.
  destruct (User_findOne _ false db) as [u|] eqn:Hfind.
  - split.
    + destruct (User_save _ _ _ _) as [e|[db' saved]]; discriminate.
    + intros Hnone. exfalso. apply Hnone.
      apply User_findOne_Some in Hfind as (stored & Hstored & _).
      apply findFirst_Some in Hstored as [Hin Hq].
      apply resetQuery_true in Hq. by exists stored.
  - split; [|done]. intros _ (v & Hin & Hq).
    apply User_findOne_None in Hfind. rewrite findFirst_None in Hfind.
    apply (proj2 (resetQuery_true _ _ _)) in Hq. rewrite (Hfind v Hin) in Hq.
    discriminate.
Qed.

(** What [issueResetToken] stores. *)
Lemma issueResetToken_run (u0 : User) randomBytes now db :
  NoDup (user_id <$> users db) -> u0 ∈ users db ->
  issueResetToken (User_select false u0) randomBytes now db
  = inr (set_users
           (updateFirst (User_byId (user_id u0))
              (writePaths ["passwordResetExpires"; "passwordResetToken"]
                 (doc (createPasswordResetToken randomBytes now
                         (loaded (User_select false u0))).2))
              (users db)) db,
         toHex randomBytes).
Proof.
  intros Hnodup Hin. unfold issueResetToken, User_save. simpl.
  by rewrite (User_byId_found _ _ Hnodup Hin).
Qed.
End SessionLemmas.

(** X1.  A reset token issued for a user who is not deactivated (step 2
    of forgotPassword: createPasswordResetToken, then a save without
    validation) is accepted by [resetPassword] at every time strictly
    before ten minutes after its issue and refused with the 400 error
    from then on, provided ids are unique and no user already holds the
    digest of the token. *)
Theorem reset_token_window `{Library} (JWT_SECRET : string) (u0 : User)
    (randomBytes : list Byte.byte) (now now' : Z) (req : Request) (db : Db) :
  NoDup (user_id <$> users db) ->
  u0 ∈ users db ->
  active u0 <> Some false ->
  (forall v, v ∈ users db ->
             passwordResetToken v <> Some (sha256_hex (toHex randomBytes))) ->
  exists db',
    issueResetToken (User_select false u0) randomBytes now db = inr (db', toHex randomBytes)
    /\ tours db' = tours db /\ reviews db' = reviews db
    /\ (resetPassword JWT_SECRET (toHex randomBytes) req now' db'
        = finish db' [Next (Some (AppError "Token is invalid or has expired" 400))]
        <-> now + 600000 <= now').
Proof.
  intros Hnodup Hin Hactive Hfresh. eexists.
  split; [by apply issueResetToken_run|]. split; [done|]. split; [done|].
  change (AppError "Token is invalid or has expired" 400) with tokenInvalid.
  rewrite resetPassword_refused_iff. simpl.
  set (w := writePaths _ _). split.
  - intros Hnone. destruct (Z.le_gt_cases (now + 600000) now') as [Hle|Hgt]; [done|].
    exfalso. apply Hnone. exists (w u0). split.
    { apply updateFirst_elem. by apply User_byId_found. }
    split; [done|]. split; [done|]. exists (now + 10 * 60 * 1000). split; [done|lia].
  - intros Hle (v & Hv & Hact & Htoken & t & Hexp & Hlt).
    apply elem_updateFirst in Hv as [Hv|(x & Hx & ->)].
    + by apply (Hfresh v Hv).
    + simpl in Hexp. injection Hexp as <-. lia.
Qed.

Lemma reset_token_window_witness :
  exists db',
    @issueResetToken sampleLibrary (User_select false sampleUser) sampleRandomBytes 0 sampleDb
    = inr (db', "0aff")
    /\ @resetPassword sampleLibrary sampleSecret "0aff" resetRequest 600000 db'
       = finish db' [Next (Some tokenInvalid)].
Proof.
  assert (Hfresh : forall v, v ∈ users sampleDb ->
                     passwordResetToken v
                     <> Some (@sha256_hex sampleLibrary (toHex sampleRandomBytes))).
  { intros v Hv. apply list_elem_of_singleton in Hv as ->. discriminate. }
  assert (Hnodup : NoDup (user_id <$> users sampleDb)) by apply NoDup_singleton.
  assert (Hin : sampleUser ∈ users sampleDb) by left.
  assert (Hactive : active sampleUser <> Some false) by discriminate.
  destruct (@reset_token_window sampleLibrary sampleSecret sampleUser sampleRandomBytes
              0 600000 resetRequest sampleDb Hnodup Hin Hactive Hfresh)
    as (db' & Hissue & _ & _ & Hwindow).
  exists db'. split; [exact Hissue|]. apply Hwindow. lia.
Defined.

Section PasswordChange.
Context `{Library}.
Variable JWT_SECRET : string.

(** The run of a [resetPassword] that finds the stored user [u0] and
    whose new password passes validation. *)
Lemma resetPassword_success token req now db u0 :
  NoDup (user_id <$> users db) ->
  findFirst (User_preFind (resetQuery (sha256_hex token) now)) (users db) = Some u0 ->
  User_validate (resetAssignments req (User_select false u0)) = [] ->
  exists pw,
    body req !! "password" ≫= castString = Some pw
    /\ resetPassword JWT_SECRET token req now db
       = finish (set_users
                   (updateFirst (User_byId (user_id u0))
                      (fun _ => withNewPassword (bcrypt_hash pw 12) (now - 1000) true u0)
                      (users db)) db)
                (createSendToken JWT_SECRET
                   (withNewPassword (bcrypt_hash pw 12) (now - 1000) true
                      (User_select false u0)) 200).
Proof.
  intros Hnodup Hfound Hvalid.
  destruct (findFirst_Some _ _ _ Hfound) as [Hin Hq].
  pose proof (User_byId_found _ _ Hnodup Hin) as Hstored.
  assert (Hpw : exists pw, body req !! "password" ≫= castString = Some pw).
  { unfold User_validate in Hvalid.
    apply app_eq_nil in Hvalid as [_ Hvalid].
    apply app_eq_nil in Hvalid as [_ Hvalid].
    apply app_eq_nil in Hvalid as [Hvalid _].
    simpl in Hvalid.
    destruct (body req !! "password" ≫= castString) as [pw|]; [by exists pw|].
    discriminate. }
  destruct Hpw as [pw Hpw]. exists pw. split; [done|].
  pose proof (User_save_loaded true now (resetAssignments req (User_select false u0))
                db pw u0 Hvalid eq_refl) as Hsave.
  simpl in Hsave. rewrite Hpw in Hsave.
  specialize (Hsave eq_refl eq_refl eq_refl Hstored).
  unfold resetPassword, User_findOne. rewrite Hfound. simpl. rewrite Hsave.
  rewrite (updateFirst_first _ _ _ _ Hstored). reflexivity.
Qed.

End PasswordChange.

Section AfterPasswordChange.
Context `{Library}.
Variable JWT_SECRET : string.

(** The reads of a collection in which the document [u0] was replaced by
    [withNewPassword hash changedAt afterReset u0]. *)
Lemma changed_user_found (l : list User) u0 hash changedAt afterReset q :
  NoDup (user_id <$> l) -> u0 ∈ l -> active u0 <> Some false ->
  (forall y, y ∈ l -> q y = true -> y = u0) ->
  q (withNewPassword hash changedAt afterReset u0) = true ->
  findFirst (User_preFind q)
    (updateFirst (User_byId (user_id u0))
                 (fun _ => withNewPassword hash changedAt afterReset u0) l)
  = Some (withNewPassword hash changedAt afterReset u0).
Proof.
  intros Hnodup Hin Hactive Honly Hq.
  apply (findFirst_updateFirst_narrower _ _ (fun _ => _) l u0).
  - intros y Hy [Hqy _]%andb_true_iff. rewrite (Honly y Hy Hqy).
    unfold User_byId. apply String.eqb_refl.
  - by apply User_byId_found.
  - unfold User_preFind. rewrite Hq. simpl. by apply activeNeFalse_true.
Qed.
End AfterPasswordChange.

(** X2.  A reset token works once: after a [resetPassword] that found a
    user and stored the new password, every later [resetPassword] with
    the same token is refused with the 400 error, whatever its body and
    time, provided ids are unique and no other user held the digest of
    that token. *)
Theorem reset_token_single_use `{Library} (JWT_SECRET token : string) (req : Request)
    (now : Z) (db : Db) (u0 : User) :
  NoDup (user_id <$> users db) ->
  findFirst (User_preFind (resetQuery (sha256_hex token) now)) (users db) = Some u0 ->
  User_validate (resetAssignments req (User_select false u0)) = [] ->
  (forall v, v ∈ users db -> passwordResetToken v = Some (sha256_hex token) -> v = u0) ->
  let db' := run_db (resetPassword JWT_SECRET token req now db) in
  (exists payload,
     run_effects (resetPassword JWT_SECRET token req now db)
     = [Cookie "jwt" (jwt_sign (user_id u0) JWT_SECRET); Send 200 payload])
  /\ forall req2 now2,
       resetPassword JWT_SECRET token req2 now2 db'
       = finish db' [Next (Some (AppError "Token is invalid or has expired" 400))].
Proof.
  intros Hnodup Hfound Hvalid Honly db'.
  destruct (resetPassword_success JWT_SECRET token req now db u0 Hnodup Hfound Hvalid)
    as (pw & Hpw & Hrun).
  unfold db'. rewrite Hrun. simpl. split; [by eexists|].
  intros req2 now2.
  change (AppError "Token is invalid or has expired" 400) with tokenInvalid.
  apply resetPassword_refused_iff. simpl.
  intros (v & Hv & _ & Htoken & _).
  destruct (findFirst_Some _ _ _ Hfound) as [Hin _].
  apply elem_updateFirst_deleted in Hv as [(x & _ & ->)|Hv]; [discriminate|].
  apply (deleteFirst_key_gone user_id _ _ u0 v Hnodup (User_byId_found _ _ Hnodup Hin) Hv).
  f_equal. apply Honly; [|done]. by apply (deleteFirst_subseteq (User_byId (user_id u0))).
Qed.

Lemma reset_token_single_use_witness :
  let db' := run_db (@resetPassword sampleLibrary sampleSecret "abc" resetRequest 1000
                       (mkDb [resettingUser] [] [])) in
  @resetPassword sampleLibrary sampleSecret "abc" resetRequest 1500 db'
  = finish db' [Next (Some tokenInvalid)].
Proof.
  intros db'.
  assert (Honly : forall v, v ∈ [resettingUser] ->
                    passwordResetToken v = Some (@sha256_hex sampleLibrary "abc") ->
                    v = resettingUser).
  { intros v Hv _. by apply list_elem_of_singleton in Hv. }
  exact (proj2 (@reset_token_single_use sampleLibrary sampleSecret "abc" resetRequest 1000
                  (mkDb [resettingUser] [] []) resettingUser
                  (NoDup_singleton _) eq_refl eq_refl Honly)
               resetRequest 1500).
Defined.

(** X3.  After a [resetPassword] that stored a new password, [login]
    with the user's address and the new password answers 200 with a
    token for that user, provided ids and addresses are unique and
    bcrypt accepts the password against its own hash. *)
Theorem login_after_reset `{Library} (JWT_SECRET token address address' : string)
    (req : Request) (now : Z) (db : Db) (u0 : User) (pw : string) :
  NoDup (user_id <$> users db) ->
  NoDup (email <$> users db) ->
  findFirst (User_preFind (resetQuery (sha256_hex token) now)) (users db) = Some u0 ->
  User_validate (resetAssignments req (User_select false u0)) = [] ->
  body req !! "password" ≫= castString = Some pw ->
  bcrypt_compare pw (bcrypt_hash pw 12) = true ->
  address <> "" -> castString (JStr address) = Some address' ->
  toLowerCase address' = email u0 ->
  let db' := run_db (resetPassword JWT_SECRET token req now db) in
  exists sent,
    login JWT_SECRET (loginRequest address pw) db'
    = finish db' [Cookie "jwt" (jwt_sign (user_id u0) JWT_SECRET);
                  Send 200 (token_user (jwt_sign (user_id u0) JWT_SECRET) sent)]
    /\ user_id sent = user_id u0 /\ password sent = None.
Proof.
  intros Hnodup Hmails Hfound Hvalid Hpw Hbcrypt Haddress Hcast Hlower db'.
  destruct (resetPassword_success JWT_SECRET token req now db u0 Hnodup Hfound Hvalid)
    as (pw' & Hpw' & Hrun).
  rewrite Hpw in Hpw'. injection Hpw' as <-.
  destruct (findFirst_Some _ _ _ Hfound) as [Hin Hq].
  apply resetQuery_true in Hq as (Hactive & _).
  assert (Hnonempty : pw <> "").
  { intros ->. unfold User_validate in Hvalid.
    apply app_eq_nil in Hvalid as [_ Hvalid].
    apply app_eq_nil in Hvalid as [_ Hvalid].
    apply app_eq_nil in Hvalid as [Hvalid _].
    simpl in Hvalid. rewrite Hpw in Hvalid. discriminate. }
  unfold db'. rewrite Hrun. simpl run_db.
  unfold login, loginRequest. simpl body.
  rewrite lookup_insert_eq, lookup_insert_ne, lookup_insert_eq by done.
  simpl. rewrite (proj2 (String.eqb_neq _ _) Haddress), (proj2 (String.eqb_neq _ _) Hnonempty).
  simpl. rewrite Hcast. unfold User_findOne. simpl users.
  rewrite (changed_user_found (users db) u0 _ _ _ _ Hnodup Hin Hactive).
  - simpl. rewrite Hbcrypt. simpl. eexists. split; [reflexivity|]. done.
  - intros y Hy Hmail. apply String.eqb_eq in Hmail.
    apply (NoDup_key_eq email (users db)); auto. congruence.
  - simpl. rewrite Hlower. apply String.eqb_refl.
Qed.

Lemma login_after_reset_witness :
  let db' := run_db (@resetPassword sampleLibrary sampleSecret "abc" resetRequest 1000
                       (mkDb [resettingUser] [] [])) in
  exists sent,
    @login sampleLibrary sampleSecret (loginRequest "cy@example.com" "correct horse") db'
    = finish db' [Cookie "jwt" "u3.s3cret"; Send 200 (token_user "u3.s3cret" sent)].
Proof.
  intros db'.
  destruct (@login_after_reset sampleLibrary sampleSecret "abc" "cy@example.com"
              "cy@example.com" resetRequest 1000 (mkDb [resettingUser] [] [])
              resettingUser "correct horse"
              (NoDup_singleton _) (NoDup_singleton _) eq_refl eq_refl eq_refl eq_refl
              ltac:(discriminate) eq_refl eq_refl)
    as (sent & Hlogin & _).
  exists sent. exact Hlogin.
Defined.



(** X5.  On a request without an authorization header that starts with
    Bearer, [isLoggedIn] answers 200 with a user exactly when [protect]
    grants access to that user, and both pass on the same error of
    [jwt.verify].  A header that starts with Bearer but has no second
    word makes [protect] refuse with the 401 error 'You are not logged
    in', whatever the jwt cookie holds, whereas [isLoggedIn] never reads
    the header. *)
Theorem isLoggedIn_agrees_with_protect `{Library} (JWT_SECRET : string) (req : Request)
    (db : Db) :
  (match headers_authorization req with
   | Some a => a = "" \/ startsWith a "Bearer" = false
   | None => True
   end ->
   (forall u,
      isLoggedIn JWT_SECRET req db = finish db [Send 200 (data_user (Some u))]
      <-> protect JWT_SECRET req db = (set_user u req, finish db [Next None]))
   /\ run_rejected (isLoggedIn JWT_SECRET req db)
      = run_rejected (protect JWT_SECRET req db).2)
  /\ (forall a,
        headers_authorization req = Some a -> a <> "" -> startsWith a "Bearer" = true ->
        nth_error (split " " a) 1 = None ->
        protect JWT_SECRET req db
        = (req, finish db [Next (Some (AppError
                                         "You are not logged in. Please log in to get access."
                                         401))]))
  /\ (forall authorization,
        isLoggedIn JWT_SECRET req db
        = isLoggedIn JWT_SECRET
            (mkRequest authorization (cookies_jwt req) (body req) (file_filename req)
                       (req_user req) (locals_user req)) db).
Proof.
  split; [|split].
  - intros Hheader.
    assert (Htoken : getToken req
                     = if truthy_str (cookies_jwt req) then cookies_jwt req else None).
    { unfold getToken. destruct (headers_authorization req) as [a|]; [|done].
      destruct Hheader as [-> | ->]; [done|]. by rewrite andb_false_r. }
    unfold isLoggedIn, protect. rewrite Htoken.
    destruct (cookies_jwt req) as [c|]; simpl; [|by split; [split|]].
    destruct (String.eqb c "") eqn:Hc; simpl; [by split; [split|]|].
    rewrite Hc.
    destruct (jwt_verify c JWT_SECRET) as [e|decoded]; [by split; [split|]|].
    destruct (User_findById _ db) as [cu|]; [|by split; [split|]].
    destruct (changedPasswordAfter cu _); [by split; [split|]|].
    split; [|done]. intros u. split; by intros [= ->].
  - intros a Ha Hnonempty Hbearer Hword. unfold protect, getToken, notLoggedIn.
    by rewrite Ha, (proj2 (String.eqb_neq _ _) Hnonempty), Hbearer, Hword.
  - done.
Qed.

Lemma isLoggedIn_agrees_with_protect_witness :
  @isLoggedIn sampleLibrary sampleSecret cookieRequest sampleDb
  = finish sampleDb [Send 200 (data_user (Some (User_select false sampleUser)))]
  /\ @protect sampleLibrary sampleSecret bearerWithoutToken sampleDb
     = (bearerWithoutToken, finish sampleDb [Next (Some notLoggedIn)]).
Proof.
  destruct (@isLoggedIn_agrees_with_protect sampleLibrary sampleSecret cookieRequest sampleDb)
    as (Hagree & _).
  destruct (@isLoggedIn_agrees_with_protect sampleLibrary sampleSecret bearerWithoutToken
              sampleDb) as (_ & Hbearer & _).
  split.
  - apply (proj1 (Hagree I) (User_select false sampleUser)). reflexivity.
  - apply (Hbearer "Bearer"); [reflexivity|discriminate|reflexivity|reflexivity].
Defined.

Lemma User_findOne_no_password `{Library} q db u :
  User_findOne q false db = Some u -> password u = None.
Proof. intros (stored & _ & ->)%User_findOne_Some. done. Qed.

Lemma createSendToken_no_password `{Library} JWT_SECRET u statusCode status p sent :
  Send status p ∈ createSendToken JWT_SECRET u statusCode ->
  payload_user p = Some sent -> password sent = None.
Proof.
  unfold createSendToken. rewrite !elem_of_cons.
  intros [[=]|[[= -> ->]|Hnil]]; [|inversion Hnil].
  simpl. by intros [= <-].
Qed.

(** X6.  No response of [login], [resetPassword], [updatePassword],
    [signup], [isLoggedIn] and [updateMe] carries a password: the user in
    the body of every response they send has no [password]. *)
Theorem responses_carry_no_password `{Library} (JWT_SECRET token id : string)
    (mail : option Err) (req : Request) (now : Z) (db : Db) (run : Run)
    (status : Z) (p : Payload) (sent : User) :
  run ∈ [login JWT_SECRET req db;
         resetPassword JWT_SECRET token req now db;
         updatePassword JWT_SECRET req now db;
         signup JWT_SECRET id mail req now db;
         isLoggedIn JWT_SECRET req db;
         updateMe req db] ->
  Send status p ∈ run_effects run ->
  payload_user p = Some sent ->
  password sent = None.
Proof.
  assert (Hnone : forall db0 e, Send status p ∈ run_effects (finish db0 [Next e]) -> False).
  { intros db0 e Hin. simpl in Hin. apply list_elem_of_singleton in Hin. discriminate. }
  assert (Hrejected : forall db0 e, Send status p ∈ run_effects (reject db0 [] e) -> False).
  { intros db0 e Hin. simpl in Hin. inversion Hin. }
  rewrite !elem_of_cons.
  intros [->|[->|[->|[->|[->|[->|Hnil]]]]]]; [| | | | | |inversion Hnil].
  - unfold login. destruct (_ || _); [by intros ?%Hnone|].
    destruct (_ ≫= _); [|by intros ?%Hrejected].
    destruct (User_findOne _ _ _) as [u|]; [|by intros ?%Hnone].
    destruct (body req !! "password") as [[]|]; try (by intros ?%Hrejected).
    destruct (password u); [|by intros ?%Hrejected].
    destruct (negb _); [by intros ?%Hnone|]. apply createSendToken_no_password.
  - unfold resetPassword. destruct (User_findOne _ _ _) as [u|]; [|by intros ?%Hnone].
    destruct (User_save _ _ _ _) as [e|[db' saved]]; [by intros ?%Hrejected|].
    apply createSendToken_no_password.
  - unfold updatePassword. destruct (req_user req) as [current|]; [|by intros ?%Hrejected].
    destruct (User_findOne _ _ _) as [u|]; [|by intros ?%Hnone].
    destruct (correctPassword _ _) as [e|[]]; [by intros ?%Hrejected| |by intros ?%Hnone].
    destruct (User_save _ _ _ _) as [e|[db' saved]]; [by intros ?%Hrejected|].
    apply createSendToken_no_password.
  - unfold signup. destruct (newUser _ _); [by intros ?%Hrejected|].
    destruct (User_save _ _ _ _) as [e|[db' saved]]; [by intros ?%Hrejected|].
    destruct mail; [by intros ?%Hrejected|]. apply createSendToken_no_password.
  - unfold isLoggedIn. destruct (truthy_str _); [|by intros ?%Hnone].
    destruct (cookies_jwt req); [|by intros ?%Hnone].
    destruct (jwt_verify _ _); [by intros ?%Hrejected|].
    destruct (User_findById _ db) as [cu|] eqn:Hfind; [|by intros ?%Hnone].
    destruct (changedPasswordAfter _ _); [by intros ?%Hnone|].
    simpl. intros [= -> ->]%list_elem_of_singleton. simpl. intros [= <-].
    by apply (User_findOne_no_password _ _ _ Hfind).
  - unfold updateMe. destruct (req_user req) as [current|]; [|by intros ?%Hrejected].
    destruct (_ || _); [by intros ?%Hnone|].
    destruct (castUserUpdate _); [by intros ?%Hrejected|].
    destruct (User_findByIdAndUpdate _ _ _ _) as [e|[db' r]] eqn:Hupdate;
      [by intros ?%Hrejected|].
    simpl. intros [= -> ->]%list_elem_of_singleton. simpl. intros ->.
    unfold User_findByIdAndUpdate in Hupdate.
    destruct (User_updateValidators _); [|discriminate].
    destruct (findFirst _ _); [|discriminate].
    destruct (from_option _ _ _); [discriminate|]. by injection Hupdate as _ <-.
Qed.

Lemma responses_carry_no_password_witness :
  Send 200 (token_user "u1.s3cret" (clear_password (User_select true sampleUser)))
    ∈ run_effects (@login sampleLibrary sampleSecret
                     (loginRequest "ana@example.com" "old-password") sampleDb)
  /\ password (clear_password (User_select true sampleUser)) = None.
Proof.
  assert (Hsent : Send 200 (token_user "u1.s3cret"
                              (clear_password (User_select true sampleUser)))
                    ∈ run_effects (@login sampleLibrary sampleSecret
                                     (loginRequest "ana@example.com" "old-password")
                                     sampleDb)).
  { apply list_elem_of_In. right. left. reflexivity. }
  split; [exact Hsent|].
  apply (@responses_carry_no_password sampleLibrary sampleSecret "" "" None
           (loginRequest "ana@example.com" "old-password") 0 sampleDb
           (@login sampleLibrary sampleSecret
              (loginRequest "ana@example.com" "old-password") sampleDb)
           200 (token_user "u1.s3cret" (clear_password (User_select true sampleUser)))
           (clear_password (User_select true sampleUser))).
  - left.
  - exact Hsent.
  - reflexivity.
Defined.

(** X7.  [login] gives one and the same answer, the 401 error 'Incorrect
    email or password', when no user has the address, when the users
    with the address are deactivated, and when the password is wrong; and
    it never writes to the database. *)
Theorem login_failures_indistinguishable `{Library} (JWT_SECRET : string) (req : Request)
    (db : Db) (address : string) :
  truthy_prop (body req !! "email") = true ->
  truthy_prop (body req !! "password") = true ->
  body req !! "email" ≫= castString = Some address ->
  ((forall v, v ∈ users db -> email v = toLowerCase address -> active v = Some false) ->
   login JWT_SECRET req db
   = finish db [Next (Some (AppError "Incorrect email or password" 401))])
  /\ (forall u0 candidate hash,
        findFirst (User_preFind (fun u => String.eqb (email u) (toLowerCase address)))
                  (users db) = Some u0 ->
        body req !! "password" = Some (JStr candidate) ->
        password u0 = Some hash ->
        bcrypt_compare candidate hash = false ->
        login JWT_SECRET req db
        = finish db [Next (Some (AppError "Incorrect email or password" 401))])
  /\ run_db (login JWT_SECRET req db) = db.
Proof.
  intros Hemail Hpassword Hcast. unfold login. rewrite Hemail, Hpassword, Hcast. simpl.
  split; [|split].
  - intros Hnone. unfold User_findOne.
    assert (Hfind : findFirst (User_preFind
                                 (fun u => String.eqb (email u) (toLowerCase address)))
                              (users db) = None).
    { apply findFirst_None. intros v Hv. unfold User_preFind.
      destruct (String.eqb (email v) (toLowerCase address)) eqn:Hmail; [|done].
      apply String.eqb_eq in Hmail. simpl. unfold activeNeFalse.
      by rewrite (Hnone v Hv Hmail). }
    by rewrite Hfind.
  - intros u0 candidate hash Hfound Hcandidate Hhash Hwrong.
    unfold User_findOne. rewrite Hfound, Hcandidate. simpl.
    by rewrite Hhash, Hwrong.
  - destruct (User_findOne _ _ _) as [u|]; [|done].
    destruct (body req !! "password") as [[]|]; try done.
    destruct (password u); [|done]. by destruct (negb _).
Qed.

Lemma login_failures_indistinguishable_witness :
  @login sampleLibrary sampleSecret (loginRequest "bo@example.com" "old-password")
    (mkDb [deactivatedUser] [] [])
  = finish (mkDb [deactivatedUser] [] []) [Next (Some incorrectLogin)]
  /\ @login sampleLibrary sampleSecret (loginRequest "ana@example.com" "wrong") sampleDb
     = finish sampleDb [Next (Some incorrectLogin)].
Proof.
  split.
  - apply (proj1 (@login_failures_indistinguishable sampleLibrary sampleSecret
                    (loginRequest "bo@example.com" "old-password")
                    (mkDb [deactivatedUser] [] []) "bo@example.com"
                    eq_refl eq_refl eq_refl)).
    intros v Hv _. by apply list_elem_of_singleton in Hv as ->.
  - exact (proj1 (proj2 (@login_failures_indistinguishable sampleLibrary sampleSecret
                           (loginRequest "ana@example.com" "wrong") sampleDb
                           "ana@example.com" eq_refl eq_refl eq_refl))
                 sampleUser "wrong" "$2a$12$old-password" eq_refl eq_refl eq_refl eq_refl).
Defined.

Section ProtectLemmas.
Context `{Library}.
Variable JWT_SECRET : string.

(** What a grant of [protect] rests on. *)
Lemma protect_granted req db u :
  protect JWT_SECRET req db = (set_user u req, finish db [Next None]) ->
  exists token decoded,
    getToken req = Some token /\ String.eqb token "" = false
    /\ jwt_verify token JWT_SECRET = inr decoded
    /\ User_findById (decoded_id decoded) db = Some u
    /\ changedPasswordAfter u (decoded_iat decoded) = false.
Proof.
  unfold protect.
  destruct (getToken req) as [token|]; [|discriminate].
  destruct (String.eqb token "") eqn:Hempty; [discriminate|].
  destruct (jwt_verify token JWT_SECRET) as [e|decoded] eqn:Hverify; [discriminate|].
  destruct (User_findById _ db) as [cu|] eqn:Hfind; [|discriminate].
  destruct (changedPasswordAfter cu _) eqn:Hchanged; [discriminate|].
  intros [= ->]. by exists token, decoded.
Qed.

(** [protect] grants access, or stops the request with one error. *)
Lemma protect_cases req db :
  (exists u, protect JWT_SECRET req db = (set_user u req, finish db [Next None]))
  \/ (exists e, (protect JWT_SECRET req db).1 = req
                /\ catchAsync (protect JWT_SECRET req db).2 = (db, [Next (Some e)])).
Proof.
  unfold protect.
  destruct (getToken req) as [token|]; [|right; by eexists].
  destruct (String.eqb token ""); [right; by eexists|].
  destruct (jwt_verify token JWT_SECRET) as [e|decoded]; [right; by eexists|].
  destruct (User_findById _ db) as [cu|]; [|right; by eexists].
  destruct (changedPasswordAfter cu _); [right; by eexists|].
  left. by eexists.
Qed.

Lemma User_findById_id id db u : User_findById id db = Some u -> user_id u = id.
Proof.
  intros (stored & Hstored & ->)%User_findOne_Some.
  apply findFirst_Some in Hstored as [_ Hq].
  apply User_preFind_byId_narrower in Hq. unfold User_byId in Hq.
  by apply String.eqb_eq in Hq.
Qed.
End ProtectLemmas.

(** X8.  Behind [protect], [deleteMe] ends the session of its caller: the
    route answers 204, and from then on [protect] refuses the same
    request with the 401 error 'The user no longer exists.', so that a
    second call of the route changes nothing, provided ids are unique.
    No document is removed. *)
Theorem deleteMe_ends_the_session `{Library} (JWT_SECRET : string) (req : Request)
    (db : Db) (u : User) :
  NoDup (user_id <$> users db) ->
  protect JWT_SECRET req db = (set_user u req, finish db [Next None]) ->
  exists db',
    deleteMeRoute JWT_SECRET req db = (db', [Send 204 data_null])
    /\ length (users db') = length (users db)
    /\ protect JWT_SECRET req db'
       = (req, finish db' [Next (Some (AppError "The user no longer exists." 401))])
    /\ deleteMeRoute JWT_SECRET req db'
       = (db', [Next (Some (AppError "The user no longer exists." 401))]).
Proof.
  intros Hnodup Hgranted.
  destruct (protect_granted _ _ _ _ Hgranted)
    as (token & decoded & Htoken & Hnonempty & Hverify & Hfind & Hchanged).
  pose proof (User_findById_id _ _ _ Hfind) as Hid.
  destruct (User_findOne_Some _ _ _ _ Hfind) as (stored & Hstored & _).
  eexists. split.
  { unfold deleteMeRoute, behindProtect. rewrite Hgranted. simpl.
    rewrite (deleteMe_run (set_user u req) db u eq_refl). reflexivity. }
  assert (Hrefused :
            protect JWT_SECRET req
              (set_users (updateFirst (User_preFind (User_byId (user_id u)))
                                      (set_active (Some false)) (users db)) db)
            = (req, finish
                      (set_users (updateFirst (User_preFind (User_byId (user_id u)))
                                              (set_active (Some false)) (users db)) db)
                      [Next (Some userGone)])).
  { unfold protect. rewrite Htoken, Hnonempty, Hverify.
    unfold User_findById, User_findOne. simpl users.
    rewrite <- Hid. rewrite <- Hid in Hstored.
    rewrite findFirst_filter, (filter_deactivated _ _ (users db)), <- findFirst_filter.
    assert (Hgone : findFirst (User_preFind (User_byId (user_id u)))
                      (deleteFirst (User_preFind (User_byId (user_id u))) (users db))
                    = None).
    { apply findFirst_None. intros y Hy.
      destruct (User_preFind (User_byId (user_id u)) y) eqn:Hq; [|done].
      exfalso.
      apply (deleteFirst_key_gone user_id _ _ stored y Hnodup Hstored Hy).
      apply findFirst_Some in Hstored as [_ Hs].
      apply (User_byId_same_key (user_id u)); by apply User_preFind_byId_narrower. }
    by rewrite Hgone. }
  simpl. split.
  { symmetry. apply (Forall2_length (fun _ _ => True)).
    by apply updateFirst_Forall2. }
  split; [exact Hrefused|].
  unfold deleteMeRoute, behindProtect. by rewrite Hrefused.
Qed.

Lemma deleteMe_ends_the_session_witness :
  exists db',
    @deleteMeRoute sampleLibrary sampleSecret bearerRequest sampleDb
    = (db', [Send 204 data_null])
    /\ length (users db') = length (users sampleDb)
    /\ @protect sampleLibrary sampleSecret bearerRequest db'
       = (bearerRequest, finish db' [Next (Some (AppError "The user no longer exists." 401))])
    /\ @deleteMeRoute sampleLibrary sampleSecret bearerRequest db'
       = (db', [Next (Some (AppError "The user no longer exists." 401))]).
Proof.
  apply (@deleteMe_ends_the_session sampleLibrary sampleSecret bearerRequest sampleDb
           (User_select false sampleUser)).
  - apply (NoDup_singleton "u1").
  - reflexivity.
Defined.

(** X9.  A route behind [protect] and [restrictTo('admin')] runs its
    handler only for a user [protect] admitted whose role is admin, and
    then on the request [protect] left; a user with another role gets the
    403 error, and every other request the error of [protect].  The
    reading of [req.user.role] never throws there. *)
Theorem adminRoute_spec `{Library} (JWT_SECRET : string)
    (handler : Request -> Db -> Db * list Effect) (req : Request) (db : Db) :
  (exists u, protect JWT_SECRET req db = (set_user u req, finish db [Next None])
             /\ role u = role_admin
             /\ adminRoute JWT_SECRET handler req db = handler (set_user u req) db)
  \/ (exists u, protect JWT_SECRET req db = (set_user u req, finish db [Next None])
                /\ role u <> role_admin
                /\ adminRoute JWT_SECRET handler req db
                   = (db, [Next (Some (AppError
                                         "You do not have permission to perform this action"
                                         403))]))
  \/ (exists e, (e ∈ [notLoggedIn; userGone; passwordChanged]
                 \/ exists token, getToken req = Some token
                                  /\ jwt_verify token JWT_SECRET = inl e)
                /\ adminRoute JWT_SECRET handler req db = (db, [Next (Some e)])).
Proof.
  unfold adminRoute, behindProtect, protect.
  destruct (getToken req) as [token|].
  2: { right; right. exists notLoggedIn. split; [left; set_solver|done]. }
  destruct (String.eqb token "").
  { right; right. exists notLoggedIn. split; [left; set_solver|done]. }
  destruct (jwt_verify token JWT_SECRET) as [e|decoded] eqn:Hverify.
  { right; right. exists e. split; [right; by exists token|done]. }
  destruct (User_findById _ db) as [u|].
  2: { right; right. exists userGone. split; [left; set_solver|done]. }
  destruct (changedPasswordAfter u _).
  { right; right. exists passwordChanged. split; [left; set_solver|done]. }
  unfold restrictTo, catchAsync, finish.
  cbn [run_db run_effects run_rejected app req_user set_user].
  destruct (decide (role u = role_admin)) as [Hadmin|Hother].
  - left. exists u. repeat split; [done|].
    rewrite bool_decide_eq_true_2; [done|]. rewrite Hadmin. set_solver.
  - right; left. exists u. repeat split; [done|].
    rewrite bool_decide_eq_false_2; [done|]. by intros Hin%list_elem_of_singleton.
Qed.

Section SignupLemmas.
Context `{Library}.

Lemma presentPaths_password obj v :
  obj !! "password" = Some v -> "password" ∈ presentPaths obj.
Proof.
  intros Hv. unfold presentPaths. apply list_elem_of_In, filter_In. split.
  - simpl. tauto.
  - apply bool_decide_eq_true. by rewrite Hv.
Qed.

(** What [new User(obj)] holds. *)
Lemma newUser_inv id obj d :
  newUser id obj = inr d ->
  isNew d = true /\ modifiedPaths d = presentPaths obj /\ user_id (doc d) = id
  /\ castPath castString (obj !! "password") = Some (password (doc d))
  /\ exists r, castPath castString (obj !! "role") = Some r
               /\ from_option parseRole (Some role_user) r = Some (role (doc d)).
Proof.
  unfold newUser.
  destruct (castPath castString (obj !! "name")) as [n|]; simpl; [|discriminate].
  destruct (castPath castString (obj !! "email")) as [e|]; simpl; [|discriminate].
  destruct (castPath castString (obj !! "photo")) as [p|]; simpl; [|discriminate].
  destruct (castPath castString (obj !! "role")) as [r|]; simpl; [|discriminate].
  destruct (castPath castString (obj !! "password")) as [pw|]; simpl; [|discriminate].
  destruct (castPath castString (obj !! "passwordConfirm")) as [pc|]; simpl; [|discriminate].
  destruct (castPath castDate (obj !! "passwordChangedAt")) as [ca|]; simpl; [|discriminate].
  destruct (castPath castString (obj !! "passwordResetToken")) as [rt|]; simpl;
    [|discriminate].
  destruct (castPath castDate (obj !! "passwordResetExpires")) as [re|]; simpl;
    [|discriminate].
  destruct (castPath castBoolean (obj !! "active")) as [a|]; simpl; [|discriminate].
  destruct (from_option parseRole (Some role_user) r) as [r'|] eqn:Hrole; [|discriminate].
  intros [= <-]. simpl. do 4 (split; [done|]). by exists r.
Qed.

Lemma castPath_Some {B : Type} (cast : JsValue -> option B) o (b : B) :
  castPath cast o = Some (Some b) -> exists v, o = Some v /\ cast v = Some b.
Proof.
  destruct o as [v|]; simpl; [|discriminate].
  destruct (cast v) as [b'|] eqn:Hcast; simpl; [|discriminate].
  intros [= ->]. by exists v.
Qed.

(** The validation of a new document passes only with a password. *)
Lemma User_validate_new_password d :
  isNew d = true -> User_validate d = [] -> exists pw, password (doc d) = Some pw.
Proof.
  unfold User_validate. intros ->. rewrite andb_false_r. simpl.
  intros (_ & (_ & (Hpw & _)%app_eq_nil)%app_eq_nil)%app_eq_nil.
  destruct (password (doc d)) as [pw|]; [by exists pw|discriminate].
Qed.
End SignupLemmas.

(** X10.  [signup] stores the new user with the hash of the password of
    the body in place of the password, without [passwordConfirm] and
    without a time of password change, and with the role the body names,
    whichever it is; a failure of the welcome mail is passed on with the
    user stored all the same. *)
Theorem signup_stores `{Library} (JWT_SECRET : string) (id : string) (mail : option Err)
    (req : Request) (now : Z) (db : Db) (d : UserDoc) :
  newUser id (body req) = inr d ->
  User_validate d = [] ->
  existsb (fun v => String.eqb (email v) (email (doc d))) (users db) = false ->
  exists pw,
    body req !! "password" ≫= castString = Some pw
    /\ let stored := withHash (bcrypt_hash pw 12) (doc d) in
       let db' := set_users (users db ++ [stored]) db in
       user_id stored = id
       /\ (forall v, body req !! "role" = Some v ->
                     exists s, castString v = Some s /\ parseRole s = Some (role stored))
       /\ (body req !! "role" = None -> role stored = role_user)
       /\ (mail = None ->
           signup JWT_SECRET id mail req now db
           = finish db' [Cookie "jwt" (jwt_sign id JWT_SECRET);
                         Send 201 (token_user (jwt_sign id JWT_SECRET)
                                              (clear_password stored))])
       /\ (forall e, mail = Some e ->
                     signup JWT_SECRET id mail req now db = reject db' [] e).
Proof.
  intros Hnew Hvalid Hfree.
  destruct (newUser_inv _ _ _ Hnew) as (Hisnew & Hpaths & Hid & Hcast & r & Hr & Hrole).
  destruct (User_validate_new_password d Hisnew Hvalid) as [pw Hpw].
  rewrite Hpw in Hcast. apply castPath_Some in Hcast as (v & Hv & Hcast).
  assert (Hmod : isModified "password" d = true).
  { unfold isModified. rewrite Hpaths. apply bool_decide_eq_true.
    by apply (presentPaths_password _ v). }
  assert (Hsave : User_save true now d db
                  = inr (set_users (users db ++ [withHash (bcrypt_hash pw 12) (doc d)]) db,
                         mkUserDoc (withHash (bcrypt_hash pw 12) (doc d)) [] false)).
  { unfold User_save. rewrite Hvalid. unfold preSave_hashPassword. rewrite Hmod, Hpw. simpl.
    unfold preSave_passwordChangedAt. simpl. rewrite Hisnew. simpl.
    rewrite Hisnew, Hfree. reflexivity. }
  exists pw. split; [by rewrite Hv|]. simpl. split; [done|].
  split; [|split; [|split]].
  - intros v' Hv'. rewrite Hv' in Hr. simpl in Hr.
    destruct (castString v') as [s|]; [|discriminate]. injection Hr as <-.
    by exists s.
  - intros Hnone. rewrite Hnone in Hr. injection Hr as <-. simpl in Hrole. congruence.
  - intros ->. unfold signup. rewrite Hnew, Hsave. unfold createSendToken, signToken.
    simpl. by rewrite Hid.
  - intros e ->. unfold signup. by rewrite Hnew, Hsave.
Qed.

Lemma signup_stores_witness :
  exists pw,
    body signupRequest !! "password" ≫= @castString sampleLibrary = Some pw
    /\ let stored := withHash (@bcrypt_hash sampleLibrary pw 12)
                       (mkUser "u7" "Dee" "dee@example.com" "default.jpg" role_admin
                               (Some "correct horse") (Some "correct horse")
                               None None None (Some true)) in
       let db' := set_users (users sampleDb ++ [stored]) sampleDb in
       user_id stored = "u7"
       /\ (forall v, body signupRequest !! "role" = Some v ->
                     exists s, @castString sampleLibrary v = Some s
                               /\ parseRole s = Some (role stored))
       /\ (body signupRequest !! "role" = None -> role stored = role_user)
       /\ (Some (Thrown "Error" None ["connect ECONNREFUSED"]) = None ->
           @signup sampleLibrary sampleSecret "u7"
             (Some (Thrown "Error" None ["connect ECONNREFUSED"])) signupRequest 0 sampleDb
           = finish db' [Cookie "jwt" (@jwt_sign sampleLibrary "u7" sampleSecret);
                         Send 201 (token_user (@jwt_sign sampleLibrary "u7" sampleSecret)
                                              (clear_password stored))])
       /\ (forall e, Some (Thrown "Error" None ["connect ECONNREFUSED"]) = Some e ->
                     @signup sampleLibrary sampleSecret "u7"
                       (Some (Thrown "Error" None ["connect ECONNREFUSED"]))
                       signupRequest 0 sampleDb
                     = reject db' [] e).
Proof.
  exact (@signup_stores sampleLibrary sampleSecret "u7"
           (Some (Thrown "Error" None ["connect ECONNREFUSED"])) signupRequest 0 sampleDb
           (mkUserDoc (mkUser "u7" "Dee" "dee@example.com" "default.jpg" role_admin
                              (Some "correct horse") (Some "correct horse")
                              None None None (Some true))
                      ["name"; "email"; "role"; "password"; "passwordConfirm"] true)
           eq_refl eq_refl eq_refl).
Defined.

(* ================================================================== *)
(** * Further properties: ratings and reviews *)
(* ================================================================== *)

Lemma count_cons {A : Type} (x : A) (l : list A) : count (x :: l) = (num 1 1 + count l)%Qc.
Proof.
  unfold count, num. apply Qc_is_canon. simpl this. rewrite !Qred_correct.
  unfold Qeq, Qplus. simpl Qnum. simpl Qden. lia.
Qed.

Lemma count_pos {A : Type} (x : A) (l : list A) : (num 0 1 < count (x :: l))%Qc.
Proof.
  unfold count, num, Qclt. simpl this. rewrite !Qred_correct.
  unfold Qlt. simpl Qnum. simpl Qden. lia.
Qed.

(** The sum of ratings within the bounds lies between the number of the
    ratings and five times that number. *)
Lemma sum_rating_bounds (l : list Review) :
  (forall r, r ∈ l -> ratingInRange (rating r)) ->
  (count l <= sum_rating l)%Qc /\ (sum_rating l <= num 5 1 * count l)%Qc.
Proof.
  induction l as [|x l IH]; intros Hall.
  - split; unfold Qcle; simpl; rewrite ?Qred_correct; unfold Qle; simpl; lia.
  - destruct (Hall x) as [Hlow Hhigh]; [left|].
    destruct IH as [IHlow IHhigh]; [intros r Hr; apply Hall; by right|].
    rewrite count_cons. simpl sum_rating. split.
    + by apply Qcplus_le_compat.
    + replace (num 5 1 * (num 1 1 + count l))%Qc with (num 5 1 + num 5 1 * count l)%Qc.
      * by apply Qcplus_le_compat.
      * rewrite Qcmult_plus_distr_r. f_equal.
Qed.

Lemma Qcinv_nonneg (c : Qc) : (num 0 1 < c)%Qc -> (num 0 1 <= / c)%Qc.
Proof.
  unfold Qclt, Qcle, Qcinv. simpl this. rewrite !Qred_correct.
  intros Hc. apply Qinv_le_0_compat. by apply Qlt_le_weak.
Qed.

(** The mean of ratings within the bounds is within the bounds. *)
Lemma avg_rating_in_range (x : Review) (l : list Review) :
  (forall r, r ∈ x :: l -> ratingInRange (rating r)) -> ratingInRange (avg_rating (x :: l)).
Proof.
  intros Hall. destruct (sum_rating_bounds _ Hall) as [Hlow Hhigh].
  pose proof (count_pos x l) as Hpos.
  assert (Hne : count (x :: l) <> num 0 1).
  { intros Heq. apply Qclt_not_eq in Hpos. by rewrite Heq in Hpos. }
  unfold avg_rating, Qcdiv. split.
  - replace (num 1 1) with (count (x :: l) * / count (x :: l))%Qc
      by (by apply Qcmult_inv_r).
    apply Qcmult_le_compat_r; [done|by apply Qcinv_nonneg].
  - replace (num 5 1) with (num 5 1 * count (x :: l) * / count (x :: l))%Qc.
    + apply Qcmult_le_compat_r; [done|by apply Qcinv_nonneg].
    + rewrite <- Qcmult_assoc, Qcmult_inv_r by done. apply Qcmult_1_r.
Qed.

(** The setter of [ratingsAverage] keeps a value within the bounds. *)
Lemma ratingsAverage_set_in_range (v : Number) :
  ratingInRange v -> ratingInRange (ratingsAverage_set v).
Proof.
  intros [Hlow Hhigh].
  assert (Hround : 10 <= Math_round (v * num 10 1)%Qc <= 50).
  { unfold Math_round. unfold Qcle in Hlow, Hhigh. simpl this in Hlow, Hhigh.
    rewrite !Qred_correct in Hlow, Hhigh. split.
    - change 10 with (Qfloor (inject_Z 10)). apply Qfloor_resp_le.
      simpl this. rewrite !Qred_correct.
      apply Qle_trans with (this v * (10 # 1))%Q.
      + apply Qle_trans with ((1 # 1) * (10 # 1))%Q; [done|].
        by apply Qmult_le_compat_r.
      + rewrite <- (Qplus_0_r (this v * (10 # 1))) at 1.
        by apply Qplus_le_r.
    - change 50 with (Qfloor (101 # 2)). apply Qfloor_resp_le.
      simpl this. rewrite !Qred_correct.
      change (101 # 2)%Q with ((5 # 1) * (10 # 1) + (1 # 2))%Q.
      apply Qplus_le_l. by apply Qmult_le_compat_r. }
  unfold ratingsAverage_set. set (z := Math_round _) in *.
  unfold ratingInRange, Qcle, Qcdiv, Qcmult, Qcinv, num.
  simpl this. rewrite !Qred_correct.
  unfold Qle, Qmult, Qinv. simpl Qnum. simpl Qden. lia.
Qed.

Lemma validate_rating_ok (v : Number) : validate_rating v = [] -> ratingInRange v.
Proof.
  unfold validate_rating.
  destruct (bool_decide (v < num 1 1)%Qc) eqn:Hlow; [discriminate|].
  destruct (bool_decide (num 5 1 < v)%Qc) eqn:Hhigh; [discriminate|].
  intros _. apply bool_decide_eq_false in Hlow, Hhigh.
  split; by apply Qcnot_lt_le.
Qed.

(** The value [calcAverageRatings] writes is within the bounds when the
    ratings of the tour's reviews are. *)
Lemma recomputed_in_range (t : string) (db : Db) (x : Tour) :
  (forall r, r ∈ reviews db -> ratingInRange (rating r)) ->
  ratingInRange (ratingsAverage (Tour_applyUpdate (recomputed t db) x)).
Proof.
  intros Hall. unfold recomputed.
  destruct (aggregate_match t (reviews db)) as [|r m] eqn:Hm; simpl.
  - apply ratingsAverage_set_in_range.
    split; unfold Qcle; simpl; rewrite ?Qred_correct; unfold Qle; simpl; lia.
  - apply ratingsAverage_set_in_range, avg_rating_in_range.
    intros r' Hr'. apply Hall. rewrite <- Hm in Hr'.
    unfold aggregate_match in Hr'. apply list_elem_of_In, filter_In in Hr' as [Hr' _].
    by apply list_elem_of_In.
Qed.

Lemma calcAverageRatings_in_range (t : string) (db db' : Db) :
  ratingsInRange db -> calcAverageRatings t db = inr db' -> ratingsInRange db'.
Proof.
  intros [Hreviews Htours]. rewrite calcAverageRatings_run. intros [= <-]. split; simpl.
  - exact Hreviews.
  - intros y Hy. apply elem_updateFirst in Hy as [Hy|(x & _ & ->)]; [by apply Htours|].
    by apply recomputed_in_range.
Qed.

(** X11.  The bounds 1 and 5 of [rating] and [ratingsAverage] are kept by
    the code that writes ratings, although [calcAverageRatings] updates
    the tour without validators: in a database whose ratings are within
    the bounds they remain so after [calcAverageRatings], after the
    creation of a review, after an update of a review with validators and
    after the deletion of a review. *)
Theorem ratings_stay_in_range (db : Db) :
  ratingsInRange db ->
  (forall t db', calcAverageRatings t db = inr db' -> ratingsInRange db')
  /\ (forall r db' r', Review_create r db = inr (db', r') -> ratingsInRange db')
  /\ (forall id upd db' r',
        Review_findByIdAndUpdate id upd true db = inr (db', r') -> ratingsInRange db')
  /\ (forall id db' r',
        Review_findByIdAndDelete id db = inr (db', r') -> ratingsInRange db').
Proof.
  intros Hrange. split; [|split; [|split]].
  - intros t db'. by apply calcAverageRatings_in_range.
  - intros r db' r'. unfold Review_create.
    destruct (validate_review _ ++ validate_rating _) eqn:Hvalid; [|discriminate].
    apply app_eq_nil in Hvalid as [_ Hrating%validate_rating_ok].
    destruct (existsb _ _); [discriminate|].
    assert (Hrange1 : ratingsInRange (set_reviews (reviews db ++ [r]) db)).
    { destruct Hrange as [Hreviews Htours]. split; simpl; [|done].
      intros y [Hy|Hy%list_elem_of_singleton]%elem_of_app; [by apply Hreviews|by subst]. }
    destruct (calcAverageRatings _ _) as [e|db2] eqn:Hcalc; intros [= <- _]; [done|].
    by apply (calcAverageRatings_in_range _ _ _ Hrange1 Hcalc).
  - intros id upd db' r'. unfold Review_findByIdAndUpdate.
    destruct (Review_updateValidators upd) eqn:Hvalid; [|discriminate].
    apply app_eq_nil in Hvalid as [_ Hrating].
    destruct (from_option _ false _); [discriminate|].
    assert (Hrange1 : ratingsInRange
                        (set_reviews (updateFirst (Review_byId id) (Review_applyUpdate upd)
                                                  (reviews db)) db)).
    { destruct Hrange as [Hreviews Htours]. split; simpl; [|done].
      intros y Hy. apply elem_updateFirst in Hy as [Hy|(x & Hx & ->)]; [by apply Hreviews|].
      simpl. destruct (upd_rating upd) as [v|]; simpl in *.
      - by apply validate_rating_ok.
      - apply Hreviews. by apply (findFirst_Some (Review_byId id)). }
    unfold postFindOneAnd. destruct (findFirst _ _) as [rev|]; [|discriminate].
    destruct (calcAverageRatings _ _) as [e|db2] eqn:Hcalc; [discriminate|].
    intros [= <- _]. by apply (calcAverageRatings_in_range _ _ _ Hrange1 Hcalc).
  - intros id db' r'. unfold Review_findByIdAndDelete, postFindOneAnd.
    assert (Hrange1 : ratingsInRange
                        (set_reviews (deleteFirst (Review_byId id) (reviews db)) db)).
    { destruct Hrange as [Hreviews Htours]. split; simpl; [|done].
      intros y Hy%deleteFirst_subseteq. by apply Hreviews. }
    destruct (findFirst _ _) as [rev|]; [|discriminate].
    destruct (calcAverageRatings _ _) as [e|db2] eqn:Hcalc; [discriminate|].
    intros [= <- _]. by apply (calcAverageRatings_in_range _ _ _ Hrange1 Hcalc).
Qed.

Lemma ratings_stay_in_range_witness :
  (forall t db', calcAverageRatings t sampleDb = inr db' -> ratingsInRange db')
  /\ (forall r db' r', Review_create r sampleDb = inr (db', r') -> ratingsInRange db')
  /\ (forall id upd db' r',
        Review_findByIdAndUpdate id upd true sampleDb = inr (db', r') -> ratingsInRange db')
  /\ (forall id db' r',
        Review_findByIdAndDelete id sampleDb = inr (db', r') -> ratingsInRange db').
Proof.
  apply (ratings_stay_in_range sampleDb).
  split; intros x Hx; simpl in Hx;
    repeat (apply elem_of_cons in Hx as [->|Hx]); try (by inversion Hx);
    split; apply (bool_decide_unpack _); vm_compute; exact I.
Defined.

Section Collections2.
Context {A : Type}.

Lemma updateFirst_twice (q : A -> bool) (f g : A -> A) l :
  (forall x, q x = true -> q (f x) = true) ->
  updateFirst q g (updateFirst q f l) = updateFirst q (fun x => g (f x)) l.
Proof.
  intros Hkeep. induction l as [|y l IH]; simpl; [done|].
  destruct (q y) eqn:Hy; simpl.
  - by rewrite (Hkeep y Hy).
  - by rewrite Hy, IH.
Qed.

Lemma findFirst_app_fresh (q : A -> bool) l x :
  (forall y, y ∈ l -> q y = false) -> q x = true ->
  findFirst q (l ++ [x]) = Some x /\ deleteFirst q (l ++ [x]) = l.
Proof.
  intros Hl Hx. induction l as [|y l IH]; simpl.
  - by rewrite Hx.
  - rewrite (Hl y) by left. destruct IH as [-> ->]; [|done].
    intros z Hz. apply Hl. by right.
Qed.
End Collections2.

(** X12.  Creating a review under a fresh id and deleting it again gives
    the database that [calcAverageRatings] on the review's tour gives
    from the original one: the reviews and users are those of before, and
    the tour's ratings are recomputed from the reviews of before. *)
Theorem review_create_delete_round_trip (r r1 : Review) (db db1 : Db) :
  review_id r ∉ review_id <$> reviews db ->
  Review_create r db = inr (db1, r1) ->
  r1 = r
  /\ exists db2,
       Review_findByIdAndDelete (review_id r) db1 = inr (db2, Some r)
       /\ calcAverageRatings (review_tour r) db = inr db2
       /\ reviews db2 = reviews db /\ users db2 = users db.
Proof.
  intros Hfresh. unfold Review_create.
  destruct (validate_review _ ++ validate_rating _); [|discriminate].
  destruct (existsb _ _); [discriminate|].
  rewrite calcAverageRatings_run. intros [= <- <-]. split; [done|].
  destruct (findFirst_app_fresh (Review_byId (review_id r)) (reviews db) r) as [Hfind Hdel].
  { intros y Hy. unfold Review_byId. apply String.eqb_neq. intros Heq.
    apply Hfresh. rewrite <- Heq. apply list_elem_of_fmap. by exists y. }
  { unfold Review_byId. apply String.eqb_refl. }
  unfold Review_findByIdAndDelete, postFindOneAnd. simpl reviews.
  rewrite Hfind, Hdel, !calcAverageRatings_run.
  eexists. split; [reflexivity|]. simpl. split; [|done].
  f_equal. unfold set_tours, set_reviews. simpl. f_equal.
  destruct (recomputed_is_ratingsUpdate (review_tour r)
              (mkDb (users db) (tours db) (reviews db ++ [r]))) as (n1 & a1 & ->).
  assert (Hsame : recomputed (review_tour r)
                    (mkDb (users db)
                          (updateFirst (Tour_preFind (Tour_byId (review_tour r)))
                                       (Tour_applyUpdate (ratingsUpdate n1 a1)) (tours db))
                          (reviews db))
                  = recomputed (review_tour r) db) by done.
  rewrite Hsame.
  destruct (recomputed_is_ratingsUpdate (review_tour r) db) as (n & a & ->).
  rewrite updateFirst_twice by (intros x; apply ratingsUpdate_keeps_query).
  by apply updateFirst_ext.
Qed.

Lemma review_create_delete_round_trip_witness :
  exists db1,
    Review_create fourthReview sampleDb = inr (db1, fourthReview)
    /\ exists db2,
         Review_findByIdAndDelete "r4" db1 = inr (db2, Some fourthReview)
         /\ calcAverageRatings "t1" sampleDb = inr db2
         /\ reviews db2 = reviews sampleDb /\ users db2 = users sampleDb.
Proof.
  assert (Hcreate :
            Review_create fourthReview sampleDb
            = inr (set_tours
                     (updateFirst (Tour_preFind (Tour_byId "t1"))
                        (Tour_applyUpdate
                           (recomputed "t1"
                              (set_reviews (reviews sampleDb ++ [fourthReview]) sampleDb)))
                        (tours sampleDb))
                     (set_reviews (reviews sampleDb ++ [fourthReview]) sampleDb),
                   fourthReview)).
  { unfold Review_create.
    change (validate_review (review fourthReview) ++ validate_rating (rating fourthReview))
      with (@nil string).
    change (existsb (samePair fourthReview) (reviews sampleDb)) with false. cbv iota.
    by rewrite calcAverageRatings_run. }
  eexists. split; [exact Hcreate|].
  refine (proj2 (review_create_delete_round_trip fourthReview fourthReview sampleDb _
                   _ Hcreate)).
  apply (bool_decide_unpack _). vm_compute. exact I.
Defined.



(* ================================================================== *)
(** * Further properties: tours *)
(* ================================================================== *)

Lemma Tour_byId_same_key id (y z : Tour) :
  Tour_preFind (Tour_byId id) y = true -> Tour_preFind (Tour_byId id) z = true ->
  tour_id y = tour_id z.
Proof.
  unfold Tour_preFind, Tour_byId.
  intros [Hy%String.eqb_eq _]%andb_true_iff [Hz%String.eqb_eq _]%andb_true_iff.
  congruence.
Qed.


Lemma Tour_findById_deleted id db x :
  NoDup (tour_id <$> tours db) ->
  Tour_findById id db = Some x ->
  Tour_findById id (set_tours (deleteFirst (Tour_preFind (Tour_byId id)) (tours db)) db)
  = None.
Proof.
  intros Hnodup Hfound. unfold Tour_findById in *. simpl tours.
  apply findFirst_None. intros y Hy.
  destruct (Tour_preFind (Tour_byId id) y) eqn:Hq; [|done]. exfalso.
  apply (deleteFirst_key_gone tour_id _ _ x y Hnodup Hfound Hy).
  apply (Tour_byId_same_key id); [done|]. by apply findFirst_Some in Hfound as [_ Hx].
Qed.




(** X15.  [deleteTour] removes the tour and nothing else: with unique
    ids the tour is not found afterwards, the other tours are those of
    before, and its reviews stay in the collection of reviews. *)
Theorem deleteTour_keeps_reviews (id : string) (db : Db) (t : Tour) :
  NoDup (tour_id <$> tours db) ->
  Tour_findById id db = Some t ->
  exists db',
    deleteTour id db = finish db' [Send 204 data_null]
    /\ getTour id db' = finish db' [Next (Some (AppError "No tour found with that ID" 404))]
    /\ deleteTour id db' = finish db' [Next (Some (AppError "No tour found with that ID" 404))]
    /\ reviews db' = reviews db /\ users db' = users db
    /\ (forall x, x ∈ tours db' <-> x ∈ tours db /\ x <> t).
Proof.
  intros Hnodup Hfound.
  pose proof (Tour_findById_deleted id db t Hnodup Hfound) as Hgone.
  eexists. split.
  { unfold deleteTour, Tour_findByIdAndDelete. unfold Tour_findById in Hfound.
    rewrite Hfound. reflexivity. }
  split.
  { unfold getTour. by rewrite Hgone. }
  split.
  { unfold deleteTour, Tour_findByIdAndDelete. unfold Tour_findById in Hgone.
    by rewrite Hgone. }
  split; [done|]. split; [done|]. simpl.
  unfold Tour_findById in Hfound. intros x. split.
  - intros Hx. split; [by apply deleteFirst_subseteq in Hx|].
    intros ->. by apply (deleteFirst_key_gone tour_id _ _ t t Hnodup Hfound Hx).
  - intros [Hx Hne].
    destruct (Tour_preFind (Tour_byId id) x) eqn:Hq; [|by apply deleteFirst_keeps].
    destruct Hne. apply (NoDup_key_eq tour_id (tours db)); [done|done| |].
    + by apply findFirst_Some in Hfound as [Ht _].
    + apply (Tour_byId_same_key id); [done|]. by apply findFirst_Some in Hfound as [_ Ht].
Qed.

Lemma deleteTour_keeps_reviews_witness :
  exists db',
    deleteTour "t1" sampleDb = finish db' [Send 204 data_null]
    /\ reviews db' = sampleReviews.
Proof.
  destruct (deleteTour_keeps_reviews "t1" sampleDb sampleTour
              (NoDup_singleton "t1") eq_refl)
    as (db' & Hdelete & _ & _ & Hreviews & _).
  exists db'. split; [exact Hdelete|exact Hreviews].
Defined.

(* ================================================================== *)
(** * Further properties: the routes of administrators, nested reviews,
      distances *)
(* ================================================================== *)



Section AdminLemmas.
Context `{Library}.

(** What the cast of an update reads of the password paths. *)
Lemma castUserUpdate_inv obj upd :
  castUserUpdate obj = inr upd ->
  castPath castString (obj !! "password") = Some (upd_password upd)
  /\ castPath castDate (obj !! "passwordChangedAt") = Some (upd_passwordChangedAt upd).
Proof.
  unfold castUserUpdate.
  destruct (castPath castString (obj !! "name")) as [n|]; simpl; [|discriminate].
  destruct (castPath castString (obj !! "email")) as [e|]; simpl; [|discriminate].
  destruct (castPath castString (obj !! "photo")) as [p|]; simpl; [|discriminate].
  destruct (castPath castString (obj !! "role")) as [r|]; simpl; [|discriminate].
  destruct (castPath castString (obj !! "password")) as [pw|]; simpl; [|discriminate].
  destruct (castPath castString (obj !! "passwordConfirm")) as [pc|]; simpl; [|discriminate].
  destruct (castPath castDate (obj !! "passwordChangedAt")) as [ca|]; simpl; [|discriminate].
  destruct (castPath castString (obj !! "passwordResetToken")) as [rt|]; simpl;
    [|discriminate].
  destruct (castPath castDate (obj !! "passwordResetExpires")) as [re|]; simpl;
    [|discriminate].
  destruct (castPath castBoolean (obj !! "active")) as [a|]; simpl; [|discriminate].
  destruct r as [s|]; [destruct (parseRole s); [|discriminate]|]; by intros [= <-].
Qed.
End AdminLemmas.

(** X17.  [updateUser] stores a password of the body as it is given: the
    update runs no save hook, so the password is not hashed and the time
    of the password change is not set, and [changedPasswordAfter] answers
    for the stored user as it did before. *)
Theorem updateUser_stores_password_as_given `{Library} (id : string) (req : Request)
    (db : Db) (upd : UserUpdate) (u : User) (v : JsValue) (pw : string) :
  castUserUpdate (body req) = inr upd ->
  User_updateValidators upd = [] ->
  body req !! "password" = Some v -> castString v = Some pw ->
  body req !! "passwordChangedAt" = None ->
  upd_email upd = None ->
  findFirst (User_preFind (User_byId id)) (users db) = Some u ->
  exists db' stored,
    updateUser id req db = (db', [user_send 200 (Some (User_select false stored))])
    /\ stored ∈ users db'
    /\ user_id stored = user_id u
    /\ password stored = Some pw
    /\ passwordChangedAt stored = passwordChangedAt u
    /\ (forall iat, changedPasswordAfter stored iat = changedPasswordAfter u iat).
Proof.
  intros Hcast Hvalid Hv Hpw Hnone Hemail Hfound.
  destruct (castUserUpdate_inv _ _ Hcast) as [Hpassword Hchanged].
  rewrite Hv in Hpassword. simpl in Hpassword. rewrite Hpw in Hpassword.
  injection Hpassword as Hpassword.
  rewrite Hnone in Hchanged. injection Hchanged as Hchanged.
  exists (set_users (updateFirst (User_preFind (User_byId id)) (User_applyUpdate upd)
                                 (users db)) db), (User_applyUpdate upd u).
  split.
  { unfold updateUser, User_findByIdAndUpdate.
    by rewrite Hcast, Hvalid, Hfound, Hemail. }
  split; [by apply updateFirst_elem|].
  simpl. rewrite <- Hpassword, <- Hchanged. simpl.
  split; [done|]. split; [done|]. split; [done|].
  intros iat. unfold changedPasswordAfter. simpl. by rewrite <- Hchanged.
Qed.

Lemma updateUser_stores_password_as_given_witness :
  exists db' stored,
    @updateUser sampleLibrary "u1" plainPasswordRequest sampleDb
    = (db', [user_send 200 (Some (User_select false stored))])
    /\ stored ∈ users db'
    /\ user_id stored = "u1"
    /\ password stored = Some "correct horse"
    /\ passwordChangedAt stored = None
    /\ (forall iat, changedPasswordAfter stored iat = changedPasswordAfter sampleUser iat).
Proof.
  exact (@updateUser_stores_password_as_given sampleLibrary "u1" plainPasswordRequest
           sampleDb
           (mkUserUpdate None None None None (Some "correct horse") None None None None None)
           sampleUser (JStr "correct horse") "correct horse"
           eq_refl eq_refl eq_refl eq_refl eq_refl eq_refl eq_refl).
Defined.

(** X18.  [setTourUserIds] fills in [tour] and [user] of the body only
    where the body has no truthy value: a user that the body names is
    kept, whoever is logged in, the path parameter and the id of the
    logged-in user being the defaults; the other properties of the body
    and the user of the request are unchanged, and [next] is called once,
    without error. *)
Theorem setTourUserIds_spec (tourId : option string) (req : Request) (u : User) :
  req_user req = Some u ->
  exists req',
    setTourUserIds tourId req = inr (req', [Next None])
    /\ req_user req' = Some u
    /\ body req' !! "tour"
       = (if truthy_prop (body req !! "tour") then body req !! "tour" else JStr <$> tourId)
    /\ body req' !! "user"
       = (if truthy_prop (body req !! "user") then body req !! "user"
          else Some (JStr (user_id u)))
    /\ forall k, k <> "tour" -> k <> "user" -> body req' !! k = body req !! k.
Proof.
  intros Hu. unfold setTourUserIds. rewrite Hu.
  destruct (truthy_prop (body req !! "tour")) eqn:Htour; simpl;
    [|destruct tourId as [t|]; simpl];
    rewrite ?lookup_insert_ne, ?lookup_delete_ne by done;
    destruct (truthy_prop (body req !! "user")) eqn:Huser; simpl;
    eexists; (split; [reflexivity|]); simpl;
    rewrite ?lookup_insert_eq, ?lookup_delete_eq,
      ?lookup_insert_ne, ?lookup_delete_ne, ?lookup_insert_eq, ?lookup_delete_eq by done;
    (split; [done|]); (split; [done|]); (split; [done|]);
    intros k Hk1 Hk2;
    by rewrite ?lookup_insert_ne, ?lookup_delete_ne, ?lookup_insert_ne by done.
Qed.

Lemma setTourUserIds_spec_witness :
  exists req',
    setTourUserIds (Some "t1") foreignReviewRequest = inr (req', [Next None])
    /\ body req' !! "tour" = Some (JStr "t1")
    /\ body req' !! "user" = Some (JStr "u2").
Proof.
  destruct (setTourUserIds_spec (Some "t1") foreignReviewRequest sampleUser eq_refl)
    as (req' & Hrun & _ & Htour & Huser & _).
  exists req'. split; [exact Hrun|]. split; [exact Htour|exact Huser].
Defined.

Lemma split_without_separator (sep : ascii) (s : string) :
  forallb (fun c => negb (Ascii.eqb c sep)) (list_ascii_of_string s) = true ->
  split sep s = [s].
Proof.
  induction s as [|c s IH]; simpl; [done|].
  intros [Hc Hs]%andb_true_iff. apply negb_true_iff in Hc. rewrite Hc.
  by rewrite (IH Hs).
Qed.

(** X19.  For a [latlng] parameter without a comma [getDistances] calls
    [next] with the 400 error and goes on all the same: the aggregation
    runs, with no longitude and with the whole parameter as latitude, on
    all tours, and a second continuation follows, the response with the
    distances or the error of the aggregation. *)
Theorem getDistances_without_comma `{Library}
    (geoNear : option Number -> option Number -> Number -> list Tour
               -> Err + list (Tour * Number))
    (latlng unit : string) (db : Db) :
  forallb (fun c => negb (Ascii.eqb c ",")) (list_ascii_of_string latlng) = true ->
  getDistances geoNear latlng unit db
  = [distance_next
       (Some (AppError "Please provide latitude and longitude in the format lat, lng." 400));
     match geoNear None (toNumber latlng)
                   (if String.eqb unit "mi" then num 621371 1000000000 else num 1 1000)
                   (tours db) with
     | inl e => distance_next (Some e)
     | inr distances =>
         distance_send 200 (map (fun td => (tour_id td.1, td.2)) distances)
     end].
Proof.
  intros Hcomma. unfold getDistances. rewrite (split_without_separator _ _ Hcomma).
  simpl nth_error. cbn [truthy_str]. rewrite orb_true_r. simpl.
  unfold multiplier. by destruct (geoNear _ _ _ _).
Qed.

Lemma getDistances_without_comma_witness :
  @getDistances sampleLibrary noTourNear "34.1" "mi" sampleDb
  = [distance_next (Some badLatLng); distance_send 200 []].
Proof.
  exact (@getDistances_without_comma sampleLibrary noTourNear "34.1" "mi" sampleDb eq_refl).
Defined.


